(** * adaptix: broaching code generator and provider resolution

    A shallow embedding of
    [src/adaptix/_internal/conversion/broaching/code_generator.py]
    (classes [GenState] and [BuiltinBroachingCodeGenerator]) together with the
    collaborators it calls, and of the mediator's provider-chain dispatch.

    Python state is threaded explicitly: every method of [GenState] and every
    [_gen_*] method of the generator is a function from the generator state to
    an outcome (a value or a raised exception) and the state left behind. *)

From Stdlib Require Import Ascii String.
From stdpp Require Import base option list strings pretty gmap.

Set Warnings "-register-all".
Local Open Scope string_scope.

(** ** Python runtime objects *)

(** An [inspect.Signature]: the formal parameters in order, each a name with
    an optional annotation, and an optional return annotation.  Parameter
    kinds and defaults are not modelled. *)
Record Signature : Type := mkSignature {
  parameters : list (string * option string);
  return_annotation : option string;
}.

(** The runtime objects that plans and namespaces hold.  Objects without a
    value-based identity (arbitrary instances, callables) carry an [ident]
    standing for Python's object identity. *)
Inductive PyObj : Type :=
| PyNone
| PyBool (b : bool)
| PyInt (n : Z)
| PyStr (s : string)
| PyList (items : list PyObj)
| PyTuple (items : list PyObj)
| PyInstance (ident : positive)
| PyCallable (ident : positive) (dunder_name : option string)
| PySignature (signature : Signature).

(** [getattr(obj, '__name__', None)]: only callables defined with a name carry
    one (a [functools.partial] or a callable instance does not). *)
Definition getattr_name (obj : PyObj) : option string :=
  match obj with
  | PyCallable _ n => n
  | _ => None
  end.

(** [special_cases_optimization.as_is_stub], the designated identity function. *)
Definition as_is_stub : PyObj := PyCallable 1 (Some "as_is_stub").

(** [func == as_is_stub]: functions compare by identity. *)
Definition is_as_is_stub (func : PyObj) : bool :=
  match func with
  | PyCallable i (Some n) => bool_decide (i = 1%positive) && String.eqb n "as_is_stub"
  | _ => false
  end.

(** ** Exceptions and outcomes *)

Inductive PyExc : Type :=
| NameCollision (name : string)
| RuntimeError
| TypeError
| SyntaxError.

Inductive Outcome (A : Type) : Type :=
| Returned (value : A)
| Raised (exc : PyExc).
Arguments Returned {A} value.
Arguments Raised {A} exc.

(** ** Text helpers: [str.join], [repr] of a [str], [str.isidentifier] *)

Fixpoint join (sep : string) (parts : list string) : string :=
  match parts with
  | [] => ""
  | [p] => p
  | p :: rest => p +:+ sep +:+ join sep rest
  end.

Definition squote : ascii := Ascii.ascii_of_nat 39.
Definition dquote : ascii := Ascii.ascii_of_nat 34.
Definition backslash : ascii := Ascii.ascii_of_nat 92.

Fixpoint string_mem (c : ascii) (s : string) : bool :=
  match s with
  | EmptyString => false
  | String d rest => Ascii.eqb c d || string_mem c rest
  end.

Definition hex_digit (n : nat) : ascii :=
  match String.get n "0123456789abcdef" with
  | Some c => c
  | None => "0"%char
  end.

(** One character of [repr(str)] under the chosen quote character. *)
Definition repr_char (quote c : ascii) : string :=
  let n := Ascii.nat_of_ascii c in
  if Ascii.eqb c backslash then String backslash (String backslash "")
  else if Ascii.eqb c quote then String backslash (String quote "")
  else if (n =? 10)%nat then String backslash "n"
  else if (n =? 13)%nat then String backslash "r"
  else if (n =? 9)%nat then String backslash "t"
  else if ((n <? 32) || (n =? 127))%nat
       then String backslash (String "x" (String (hex_digit (n / 16)) (String (hex_digit (n mod 16)) "")))
  else String c "".

Fixpoint repr_body (quote : ascii) (s : string) : string :=
  match s with
  | EmptyString => ""
  | String c rest => repr_char quote c +:+ repr_body quote rest
  end.

(** [repr(s)] for a [str]: single quotes, unless the text holds a single quote
    and no double quote.  Bytes above 127 (UTF-8 of printable text) are kept. *)
Definition py_repr (s : string) : string :=
  let quote := if string_mem squote s && negb (string_mem dquote s) then dquote else squote in
  String quote (repr_body quote s +:+ String quote "").

Definition is_id_start (c : ascii) : bool :=
  let n := Ascii.nat_of_ascii c in
  (((65 <=? n) && (n <=? 90)) || ((97 <=? n) && (n <=? 122)) || (n =? 95))%nat.

Definition is_id_continue (c : ascii) : bool :=
  let n := Ascii.nat_of_ascii c in
  is_id_start c || ((48 <=? n) && (n <=? 57))%nat.

Fixpoint all_id_continue (s : string) : bool :=
  match s with
  | EmptyString => true
  | String c rest => is_id_continue c && all_id_continue rest
  end.

(** [str.isidentifier()] on ASCII text. *)
Definition isidentifier (s : string) : bool :=
  match s with
  | EmptyString => false
  | String c rest => is_id_start c && all_id_continue rest
  end.

(** Text made of ASCII characters only.  On such text [isidentifier] is
    [str.isidentifier()]; names with other characters, for which Python
    consults the Unicode tables, are outside what the text results below
    speak about. *)
Fixpoint is_ascii (s : string) : bool :=
  match s with
  | EmptyString => true
  | String c rest => (Ascii.nat_of_ascii c <? 128)%nat && is_ascii rest
  end.

(** [keyword.kwlist]: the reserved words of Python.  Each of them satisfies
    [str.isidentifier()], and none of them can follow the dot of an attribute
    reference: [ast.parse] rejects [x.class] with [SyntaxError]. *)
Definition kwlist : list string :=
  [ "False"; "None"; "True"; "and"; "as"; "assert"; "async"; "await"; "break";
    "class"; "continue"; "def"; "del"; "elif"; "else"; "except"; "finally";
    "for"; "from"; "global"; "if"; "import"; "in"; "is"; "lambda"; "nonlocal";
    "not"; "or"; "pass"; "raise"; "return"; "try"; "while"; "with"; "yield" ].

(** [keyword.iskeyword(s)] *)
Definition iskeyword (s : string) : bool := bool_decide (s ∈ kwlist).

(** ** Literal rendering *)

(** Modelled from the spec: [code_tools.utils.get_literal_expr] is not among
    the sources.  A value has a safe literal rendering when it is a number, a
    string, a boolean, the none-value, or a literal container of such values,
    recursively; the rendering is its [repr].  Every other object has none. *)
Fixpoint get_literal_expr (obj : PyObj) : option string :=
  let all_literals :=
    fix all_literals (items : list PyObj) : option (list string) :=
      match items with
      | [] => Some []
      | x :: rest =>
          match get_literal_expr x, all_literals rest with
          | Some e, Some es => Some (e :: es)
          | _, _ => None
          end
      end in
  match obj with
  | PyNone => Some "None"
  | PyBool true => Some "True"
  | PyBool false => Some "False"
  | PyInt n => Some (pretty n)
  | PyStr s => Some (py_repr s)
  | PyList items =>
      match all_literals items with
      | Some es => Some ("[" +:+ join ", " es +:+ "]")
      | None => None
      end
  | PyTuple items =>
      match all_literals items with
      | Some [e] => Some ("(" +:+ e +:+ ",)")
      | Some es => Some ("(" +:+ join ", " es +:+ ")")
      | None => None
      end
  | PyInstance _ | PyCallable _ _ | PySignature _ => None
  end.

(** ** Symbol namespace *)

(** Modelled from the spec: [code_tools.context_namespace] is not among the
    sources.  A [BuiltinContextNamespace] is a mapping from identifier to bound
    object ([dict], returned to the caller as the capture table) plus the set
    of names occupied by the target signature's parameters. *)
Record ContextNamespace : Type := BuiltinContextNamespace {
  dict : gmap string PyObj;
  occupied : gset string;
}.

(** [name in ctx_namespace]. *)
Definition contains (ns : ContextNamespace) (name : string) : bool :=
  bool_decide (is_Some (dict ns !! name)) || bool_decide (name ∈ occupied ns).

(** [ctx_namespace.add(name, value)]: fails with [NameCollision] when [name] is
    already bound or occupied, binds it otherwise. *)
Definition add (name : string) (value : PyObj) (ns : ContextNamespace)
  : Outcome unit * ContextNamespace :=
  if contains ns name then (Raised (NameCollision name), ns)
  else (Returned tt, BuiltinContextNamespace (<[name := value]> (dict ns)) (occupied ns)).

(** The names in the namespace, bound or occupied. *)
Definition taken (ns : ContextNamespace) : gset string :=
  dom (dict ns) ∪ occupied ns.

(** ** Generator state *)

Record GenState : Type := mkGenState {
  _ctx_namespace : ContextNamespace;
  _prefix_counter : gmap string nat;
}.

(** Computations over the generator state.  An exception leaves the mutations
    made before it in place, as in Python. *)
Definition Gen (A : Type) : Type := GenState → Outcome A * GenState.

Definition ret {A} (a : A) : Gen A := λ st, (Returned a, st).
Definition raise {A} (e : PyExc) : Gen A := λ st, (Raised e, st).
Definition bind {A B} (m : Gen A) (k : A → Gen B) : Gen B :=
  λ st, match m st with
        | (Returned a, st') => k a st'
        | (Raised e, st') => (Raised e, st')
        end.

Notation "'let!' x ':=' m 'in' k" := (bind m (λ x, k))
  (at level 10, x pattern, m at level 100, k at level 200, only parsing).

(** A computation is [monotone] when it keeps the occupied names and every
    binding of the namespace, whether it returns or raises. *)
Definition monotone {A : Type} (m : Gen A) : Prop :=
  ∀ st r st', m st = (r, st') →
    occupied (_ctx_namespace st') = occupied (_ctx_namespace st) ∧
    dict (_ctx_namespace st) ⊆ dict (_ctx_namespace st').

(** [self._ctx_namespace.add(name, obj)] *)
Definition ctx_add (name : string) (obj : PyObj) : Gen unit :=
  λ st, let '(r, ns) := add name obj (_ctx_namespace st) in
        (r, mkGenState ns (_prefix_counter st)).

(** [f'{base}_{i}'] *)
Definition suffixed (base : string) (i : nat) : string :=
  base +:+ "_" +:+ pretty i.

(** The loop [for i in itertools.count(1)] of [register_mangled], up to its
    first name that is not in the namespace.  [fuel] bounds the number of
    candidates tried; [probe_bound] is always enough (see [probe_finds]). *)
Fixpoint probe (ns : ContextNamespace) (base : string) (fuel i : nat) : option string :=
  match fuel with
  | O => None
  | S fuel' =>
      let name := suffixed base i in
      if contains ns name then probe ns base fuel' (S i) else Some name
  end.

Definition probe_bound (ns : ContextNamespace) : nat :=
  S (size (dom (dict ns) ∪ occupied ns)).

(** [GenState.register_mangled].  Note that both branches call
    [self._ctx_namespace.add(base, obj)]: the second one, too, adds [base]. *)
Definition register_mangled (base : string) (obj : PyObj) : Gen string :=
  λ st,
    if contains (_ctx_namespace st) base then
      match probe (_ctx_namespace st) base (probe_bound (_ctx_namespace st)) 1 with
      | Some name => (let! _ := ctx_add base obj in ret name) st
      | None => raise RuntimeError st
      end
    else (let! _ := ctx_add base obj in ret base) st.

(** [GenState.register_next_id] *)
Definition register_next_id (prefix : string) (obj : PyObj) : Gen string :=
  λ st,
    let number := default 0 (_prefix_counter st !! prefix) in
    let st1 := mkGenState (_ctx_namespace st) (<[prefix := S number]> (_prefix_counter st)) in
    let name := suffixed prefix number in
    register_mangled name obj st1.

(** [GenState(ctx_namespace=ctx_namespace)] *)
Definition _create_state (ctx_namespace : ContextNamespace) : GenState :=
  mkGenState ctx_namespace ∅.

(** ** Emitted syntax trees *)

(** The [ast] nodes the generator builds.  [Parse source] is [ast.parse(source)];
    a keyword is [(Some key, value)] for [ast.keyword(arg=key, value=value)] and
    [(None, value)] for [ast.keyword(value=value)];
    [Substitute template target_expr] is
    [ast_substitute(template, target_expr=target_expr)]. *)
Inductive AST : Type :=
| Name (id : string)
| Parse (source : string)
| Call (func : AST) (args : list AST) (keywords : list (option string * AST))
| Starred (value : AST)
| Substitute (template : string) (target_expr : AST).

Definition ast_substitute (template : string) (target_expr : AST) : AST :=
  Substitute template target_expr.

Fixpoint strip_prefix (p s : string) : option string :=
  match p, s with
  | EmptyString, _ => Some s
  | String a p', String b s' => if Ascii.eqb a b then strip_prefix p' s' else None
  | String _ _, EmptyString => None
  end.

(** Replace the first occurrence of [placeholder] in [text]. *)
Fixpoint replace_first (placeholder replacement text : string) : string :=
  match strip_prefix placeholder text with
  | Some rest => replacement +:+ rest
  | None =>
      match text with
      | EmptyString => EmptyString
      | String c rest => String c (replace_first placeholder replacement rest)
      end
  end.

(** Modelled from the spec: [compat_ast_unparse] and [ast_substitute] are not
    among the sources.  A name unparses to itself, parsed literal text to that
    text, a call to [func(args, keywords)], and a substituted template to the
    template text with the unparsed [target_expr] in place of the template's
    [__target_expr__] name, which in each template of the generator is the
    first occurrence of that text.  [ast_substitute] parses its template, and
    raises [SyntaxError] when it does not parse; that is decided where the
    template is built, in [accessor_expr]. *)
Fixpoint compat_ast_unparse (node : AST) : string :=
  match node with
  | Name id => id
  | Parse source => source
  | Call func args keywords =>
      let unparse_args :=
        fix unparse_args (l : list AST) : list string :=
          match l with
          | [] => []
          | a :: rest => compat_ast_unparse a :: unparse_args rest
          end in
      let unparse_keywords :=
        fix unparse_keywords (l : list (option string * AST)) : list string :=
          match l with
          | [] => []
          | (Some key, v) :: rest => (key +:+ "=" +:+ compat_ast_unparse v) :: unparse_keywords rest
          | (None, v) :: rest => ("**" +:+ compat_ast_unparse v) :: unparse_keywords rest
          end in
      compat_ast_unparse func +:+ "("
        +:+ join ", " (unparse_args args ++ unparse_keywords keywords) +:+ ")"
  | Starred value => "*" +:+ compat_ast_unparse value
  | Substitute template target_expr =>
      replace_first "__target_expr__" (compat_ast_unparse target_expr) template
  end.

(** ** Plans *)

Inductive Arg (T : Type) : Type :=
| PositionalArg (element : T)
| KeywordArg (key : string) (element : T)
| UnpackMapping (element : T)
| UnpackIterable (element : T).
Arguments PositionalArg {T} element.
Arguments KeywordArg {T} key element.
Arguments UnpackMapping {T} element.
Arguments UnpackIterable {T} element.

(** [model_tools.definitions]: accessors.  Every accessor has a [getter]
    callable; a descriptor accessor names an attribute, an item accessor holds
    a key. *)
Inductive Accessor : Type :=
| DescriptorAccessor (attr_name : string) (getter : PyObj)
| ItemAccessor (key : PyObj) (getter : PyObj)
| CustomAccessor (getter : PyObj).

Definition getter (accessor : Accessor) : PyObj :=
  match accessor with
  | DescriptorAccessor _ g | ItemAccessor _ g | CustomAccessor g => g
  end.

Inductive BroachingPlan : Type :=
| ParameterElement (name : string)
| ConstantElement (value : PyObj)
| FunctionElement (func : PyObj) (args : list (Arg BroachingPlan))
| AccessorElement (target : BroachingPlan) (accessor : Accessor).

Definition arg_element {T : Type} (arg : Arg T) : T :=
  match arg with
  | PositionalArg e | KeywordArg _ e | UnpackMapping e | UnpackIterable e => e
  end.

(** ** The code generator *)

(** [_gen_parameter_element] *)
Definition _gen_parameter_element (name : string) : Gen AST :=
  ret (Name name).

(** [_gen_constant_element] *)
Definition _gen_constant_element (value : PyObj) : Gen AST :=
  match get_literal_expr value with
  | Some expr => ret (Parse expr)
  | None =>
      let! name := register_next_id "constant" value in
      ret (Name name)
  end.

(** The argument loop of [_gen_function_element]: [args] and [keywords] are
    the two lists the loop appends to, [lower] is the recursive
    [_gen_plan_element_dispatch]. *)
Fixpoint lower_args (lower : BroachingPlan → Gen AST) (todo : list (Arg BroachingPlan))
    (args : list AST) (keywords : list (option string * AST))
  : Gen (list AST * list (option string * AST)) :=
  match todo with
  | [] => ret (args, keywords)
  | PositionalArg element :: todo' =>
      let! sub_ast := lower element in
      lower_args lower todo' (args ++ [sub_ast]) keywords
  | KeywordArg key element :: todo' =>
      let! sub_ast := lower element in
      lower_args lower todo' args (keywords ++ [(Some key, sub_ast)])
  | UnpackMapping element :: todo' =>
      let! sub_ast := lower element in
      lower_args lower todo' args (keywords ++ [(None, sub_ast)])
  | UnpackIterable element :: todo' =>
      let! sub_ast := lower element in
      lower_args lower todo' (args ++ [Starred sub_ast]) keywords
  end.

(** [_gen_function_element] past its first [if]: the callable's name is
    registered, the arguments are lowered, a call is emitted. *)
Definition function_call (lower : BroachingPlan → Gen AST) (func : PyObj)
    (args : list (Arg BroachingPlan)) : Gen AST :=
  let! name :=
    match getattr_name func with
    | Some dunder_name => register_mangled dunder_name func
    | None => register_next_id "func" func
    end in
  let! lowered := lower_args lower args [] [] in
  ret (Call (Name name) (fst lowered) (snd lowered)).

(** [_gen_accessor_element] once [element.target] is lowered to [target_expr].
    Of the four templates only the dotted one can fail to parse: a reserved
    word passes [attr_name.isidentifier()], and [ast_substitute] then raises
    [SyntaxError] on [__target_expr__.<reserved word>].  The [getattr] and
    subscript templates hold the name or key as a string literal, and the
    getter template calls [accessor_N]. *)
Definition accessor_expr (target_expr : AST) (accessor : Accessor) : Gen AST :=
  let by_getter :=
    let! name := register_next_id "accessor" (getter accessor) in
    ret (ast_substitute (name +:+ "(__target_expr__)") target_expr) in
  match accessor with
  | DescriptorAccessor attr_name _ =>
      if isidentifier attr_name
      then
        if iskeyword attr_name then raise SyntaxError
        else ret (ast_substitute ("__target_expr__." +:+ attr_name) target_expr)
      else ret (ast_substitute ("getattr(__target_expr__, " +:+ py_repr attr_name +:+ ")") target_expr)
  | ItemAccessor key _ =>
      match get_literal_expr key with
      | Some literal_expr =>
          ret (ast_substitute ("__target_expr__[" +:+ py_repr literal_expr +:+ "]") target_expr)
      | None => by_getter
      end
  | CustomAccessor _ => by_getter
  end.

(** [_gen_plan_element_dispatch], with the bodies of [_gen_function_element]
    and [_gen_accessor_element] at their recursive calls.  The plan type is
    closed, so the final [raise TypeError] of the dispatch and of the argument
    loop has no case. *)
Fixpoint _gen_plan_element_dispatch (element : BroachingPlan) : Gen AST :=
  match element with
  | ParameterElement name => _gen_parameter_element name
  | ConstantElement value => _gen_constant_element value
  | FunctionElement func args =>
      match args with
      | [PositionalArg element0] =>
          if is_as_is_stub func
          then _gen_plan_element_dispatch element0
          else function_call _gen_plan_element_dispatch func args
      | _ => function_call _gen_plan_element_dispatch func args
      end
  | AccessorElement target accessor =>
      let! target_expr := _gen_plan_element_dispatch target in
      accessor_expr target_expr accessor
  end.

(** [_gen_function_element] *)
Definition _gen_function_element (func : PyObj) (args : list (Arg BroachingPlan)) : Gen AST :=
  _gen_plan_element_dispatch (FunctionElement func args).

(** [_gen_accessor_element] *)
Definition _gen_accessor_element (target : BroachingPlan) (accessor : Accessor) : Gen AST :=
  _gen_plan_element_dispatch (AccessorElement target accessor).

Definition newline : string := String (Ascii.ascii_of_nat 10) "".

(** [str(signature)] *)
Definition signature_str (signature : Signature) : string :=
  let param := λ p : string * option string,
    match p with
    | (name, Some annotation) => name +:+ ": " +:+ annotation
    | (name, None) => name
    end in
  "(" +:+ join ", " (map param (parameters signature)) +:+ ")"
  +:+ match return_annotation signature with
      | Some annotation => " -> " +:+ annotation
      | None => ""
      end.

(** [signature.replace(parameters=[param.replace(annotation=Signature.empty) ...],
    return_annotation=Signature.empty)] *)
Definition no_types (signature : Signature) : Signature :=
  mkSignature (map (λ p, (fst p, None)) (parameters signature)) None.

(** [BuiltinBroachingCodeGenerator(plan).produce_code(closure_name, signature)].
    The [CodeBuilder] lines are joined by newlines, the body of the [with]
    block indented by four spaces. *)
Definition produce_code (plan : BroachingPlan) (closure_name : string) (signature : Signature)
  : Outcome (string * gmap string PyObj) :=
  let ctx_namespace :=
    BuiltinContextNamespace ∅ (list_to_set (map fst (parameters signature))) in
  let state := _create_state ctx_namespace in
  let run :=
    let! _ := ctx_add "_closure_signature" (PySignature signature) in
    let! body := _gen_plan_element_dispatch plan in
    ret [ "def " +:+ closure_name +:+ signature_str (no_types signature) +:+ ":";
          "    " +:+ "return " +:+ compat_ast_unparse body;
          closure_name +:+ ".__signature__ = _closure_signature" ] in
  match run state with
  | (Returned lines, st) => Returned (join newline lines, dict (_ctx_namespace st))
  | (Raised exc, _) => Raised exc
  end.

(** ** Sequences of naming calls *)

(** A call of [allocate] ([register_next_id]) or of [bind_exact]
    ([register_mangled]) against a generator state. *)
Inductive NamingCall : Type :=
| Allocate (prefix : string) (obj : PyObj)
| BindExact (preferred_name : string) (obj : PyObj).

Definition naming_call (c : NamingCall) : Gen string :=
  match c with
  | Allocate prefix obj => register_next_id prefix obj
  | BindExact preferred_name obj => register_mangled preferred_name obj
  end.

(** The outcomes of a sequence of calls made one after the other on the same
    state; a caller that catches an exception goes on with the state left by
    the failed call. *)
Fixpoint run_calls (calls : list NamingCall) (st : GenState) : list (Outcome string) :=
  match calls with
  | [] => []
  | c :: rest => let '(r, st') := naming_call c st in r :: run_calls rest st'
  end.

Fixpoint returned_names (outcomes : list (Outcome string)) : list string :=
  match outcomes with
  | [] => []
  | Returned name :: rest => name :: returned_names rest
  | Raised _ :: rest => returned_names rest
  end.

(** The object a naming call registers. *)
Definition call_obj (c : NamingCall) : PyObj :=
  match c with
  | Allocate _ obj | BindExact _ obj => obj
  end.

(** The state a sequence of naming calls leaves behind. *)
Fixpoint final_state (calls : list NamingCall) (st : GenState) : GenState :=
  match calls with
  | [] => st
  | c :: rest => final_state rest (snd (naming_call c st))
  end.

(** ** Shapes of plans and argument slots *)

(** The slots that [_gen_function_element] appends to [args]: positional
    arguments and unpacked iterables.  The others, keyword arguments and
    unpacked mappings, go to [keywords]. *)
Definition goes_to_args {T : Type} (arg : Arg T) : bool :=
  match arg with
  | PositionalArg _ | UnpackIterable _ => true
  | KeywordArg _ _ | UnpackMapping _ => false
  end.

(** Plans on which no branch of the generator reaches [register_next_id] or
    [register_mangled]: parameter references, constants with a literal
    rendering, identity passthroughs, descriptor accessors and item accessors
    with a literal key, over such plans. *)
Fixpoint registers_nothing (element : BroachingPlan) : bool :=
  match element with
  | ParameterElement _ => true
  | ConstantElement value =>
      match get_literal_expr value with Some _ => true | None => false end
  | FunctionElement func [PositionalArg element0] =>
      is_as_is_stub func && registers_nothing element0
  | FunctionElement _ _ => false
  | AccessorElement target (DescriptorAccessor _ _) => registers_nothing target
  | AccessorElement target (ItemAccessor key _) =>
      registers_nothing target &&
      match get_literal_expr key with Some _ => true | None => false end
  | AccessorElement _ (CustomAccessor _) => false
  end.

(** A computation [respects] a relation between states when the state it
    leaves behind, returning or raising, is related to the one it ran in. *)
Definition respects (R : GenState → GenState → Prop) {A : Type} (m : Gen A) : Prop :=
  ∀ st r st', m st = (r, st') → R st st'.

(** [keeps_taken st st']: from [st] to [st'] the occupied names are the same
    and every name that was in the namespace looks up as before. *)
Definition keeps_taken (st st' : GenState) : Prop :=
  occupied (_ctx_namespace st') = occupied (_ctx_namespace st) ∧
  ∀ name, contains (_ctx_namespace st) name = true →
          dict (_ctx_namespace st') !! name = dict (_ctx_namespace st) !! name.


(** The elements of a list lowered one after the other, each in the state
    the one before left. *)
Fixpoint lower_each (lower : BroachingPlan → Gen AST) (elements : list BroachingPlan)
  : Gen (list AST) :=
  match elements with
  | [] => ret []
  | element :: rest =>
      let! sub := lower element in
      let! subs := lower_each lower rest in
      ret (sub :: subs)
  end.

(** What a slot whose element lowered to [sub] contributes to the [args] of
    the emitted call, and to its [keywords]. *)
Definition slot_args (slot : Arg BroachingPlan * AST) : list AST :=
  match slot with
  | (PositionalArg _, sub) => [sub]
  | (UnpackIterable _, sub) => [Starred sub]
  | (KeywordArg _ _, _) | (UnpackMapping _, _) => []
  end.

Definition slot_keywords (slot : Arg BroachingPlan * AST) : list (option string * AST) :=
  match slot with
  | (KeywordArg key _, sub) => [(Some key, sub)]
  | (UnpackMapping _, sub) => [(None, sub)]
  | (PositionalArg _, _) | (UnpackIterable _, _) => []
  end.

(** The number of nodes of a plan at which the generator registers an
    object: constants without a literal rendering, calls outside the identity
    passthrough, and accessors lowered through their getter. *)
Fixpoint registrations (element : BroachingPlan) : nat :=
  match element with
  | ParameterElement _ => 0
  | ConstantElement value =>
      match get_literal_expr value with Some _ => 0 | None => 1 end
  | FunctionElement func args =>
      let in_args :=
        (fix in_args (l : list (Arg BroachingPlan)) : nat :=
           match l with
           | [] => 0
           | PositionalArg e :: rest | KeywordArg _ e :: rest
           | UnpackMapping e :: rest | UnpackIterable e :: rest =>
               registrations e + in_args rest
           end) args in
      match args with
      | [PositionalArg element0] =>
          if is_as_is_stub func then registrations element0 else S in_args
      | _ => S in_args
      end
  | AccessorElement target accessor =>
      registrations target +
      match accessor with
      | DescriptorAccessor _ _ => 0
      | ItemAccessor key _ =>
          match get_literal_expr key with Some _ => 0 | None => 1 end
      | CustomAccessor _ => 1
      end
  end.

(** A computation that, when it returns, has added exactly [n] bindings. *)
Definition adds_bindings {A : Type} (m : Gen A) (n : nat) : Prop :=
  ∀ st a st', m st = (Returned a, st') →
    size (dict (_ctx_namespace st')) = size (dict (_ctx_namespace st)) + n.

(** ** Provider-chain resolution *)

Section Resolution.
Context {Request Answer Defect : Type}.

(** Modelled from the spec: the provider protocol ([provider/essential.py])
    is not among the sources.  Invoking a provider on a request comes to an
    answer, to the refusal signal with its reason, or to any other error the
    provider raises.  What the provider asks of the mediator on the way is
    folded into that outcome. *)
Inductive Attempt : Type :=
| Answered (answer : Answer)
| Refused (reason : string)
| Crashed (error : Defect).

(** Modelled from the spec: a provider is guarded by a request checker
    (constantly true for a provider without one) and attempts a request. *)
Record Provider : Type := mkProvider {
  checker : Request → bool;
  attempt : Request → Attempt;
}.

(** Modelled from the spec: [resolve] ends with an answer, with
    [NoProviderFound] carrying the request and the refusal reasons collected,
    or with the provider's own error, propagated unchanged. *)
Inductive Resolution : Type :=
| Resolved (answer : Answer)
| NoProviderFound (request : Request) (reasons : list string)
| Propagated (error : Defect).

(** Modelled from the spec: the mediator's loop over its ordered provider
    list, from the provider at position [i] on.  For each provider whose
    checker accepts the request it invokes the provider; on refusal it
    continues with the next one, on success it returns at once, and any
    other error is propagated at once.  [invoked] records the positions of
    the providers invoked so far, [reasons] the refusals met. *)
Fixpoint resolve_from (providers : list Provider) (i : nat) (request : Request)
    (reasons : list string) (invoked : list nat) : Resolution * list nat :=
  match providers with
  | [] => (NoProviderFound request reasons, invoked)
  | p :: rest =>
      if checker p request then
        match attempt p request with
        | Answered answer => (Resolved answer, (invoked ++ [i])%list)
        | Refused reason => resolve_from rest (S i) request (reasons ++ [reason])%list (invoked ++ [i])%list
        | Crashed error => (Propagated error, (invoked ++ [i])%list)
        end
      else resolve_from rest (S i) request reasons invoked
  end.

(** [Mediator.resolve(request)] over a provider chain: the outcome and the
    positions of the providers that were invoked, in order. *)
Definition resolve (chain : list Provider) (request : Request) : Resolution * list nat :=
  resolve_from chain 0 request [] [].
End Resolution.

Arguments Attempt : clear implicits.
Arguments Provider : clear implicits.
Arguments Resolution : clear implicits.

(** The state in which [produce_code] starts lowering the plan: the parameter
    names occupied, [_closure_signature] bound, no counter touched. *)
Definition lowering_state (signature : Signature) : GenState :=
  mkGenState
    (BuiltinContextNamespace {["_closure_signature" := PySignature signature]}
                             (list_to_set (map fst (parameters signature))))
    ∅.

(** ** Sample inputs *)

Definition sig_x : Signature := mkSignature [("x", Some "int")] (Some "Any").

(** Providers over numeric requests: one that accepts nothing, one that
    refuses what it accepts, one that raises its own error, one that answers. *)
Definition deaf_provider : Provider nat string string :=
  mkProvider (λ _, false) (λ _, Answered "deaf").
Definition refusing_provider : Provider nat string string :=
  mkProvider (λ _, true) (λ _, Refused "not mine").
Definition crashing_provider : Provider nat string string :=
  mkProvider (λ _, true) (λ _, Crashed "ZeroDivisionError").
Definition answering_provider (answer : string) : Provider nat string string :=
  mkProvider (λ _, true) (λ _, Answered answer).

Definition state_of (names : list (string * PyObj)) (params : list string) : GenState :=
  _create_state (BuiltinContextNamespace (list_to_map names) (list_to_set params)).

(** * Properties *)

(** ** The namespace and the name allocator *)

Lemma contains_taken ns name : contains ns name = true ↔ name ∈ taken ns.
Proof.
  unfold contains, taken. rewrite orb_true_iff, !bool_decide_eq_true.
  rewrite elem_of_union, elem_of_dom. tauto.
Qed.

Lemma contains_false ns name :
  contains ns name = false ↔ dict ns !! name = None ∧ name ∉ occupied ns.
Proof.
  unfold contains. rewrite orb_false_iff, !bool_decide_eq_false.
  rewrite <- eq_None_not_Some. tauto.
Qed.

Lemma add_free name value ns :
  contains ns name = false →
  add name value ns =
    (Returned tt, BuiltinContextNamespace (<[name := value]> (dict ns)) (occupied ns)).
Proof. intros H. unfold add. by rewrite H. Qed.

Lemma add_taken name value ns :
  contains ns name = true → add name value ns = (Raised (NameCollision name), ns).
Proof. intros H. unfold add. by rewrite H. Qed.

Global Instance suffixed_inj base : Inj (=) (=) (suffixed base).
Proof.
  intros i j H. unfold suffixed in H.
  apply (inj (String.app base)) in H.
  apply (inj (String.app "_")) in H.
  by apply (inj pretty) in H.
Qed.

Lemma probe_exhausted ns base fuel i :
  probe ns base fuel i = None →
  ∀ j, i ≤ j < i + fuel → suffixed base j ∈ taken ns.
Proof.
  revert i. induction fuel as [|fuel IH]; intros i H j Hj; [lia|].
  simpl in H. destruct (contains ns (suffixed base i)) eqn:Hc; [|done].
  destruct (decide (j = i)) as [->|Hne].
  - by apply contains_taken.
  - apply (IH (S i)); [done | lia].
Qed.

Lemma probe_sound ns base fuel i name :
  probe ns base fuel i = Some name →
  contains ns name = false ∧
  ∃ k : nat, (i ≤ k)%nat ∧ name = suffixed base k ∧
       ∀ j, i ≤ j < k → contains ns (suffixed base j) = true.
Proof.
  revert i. induction fuel as [|fuel IH]; intros i H; [done|].
  simpl in H. destruct (contains ns (suffixed base i)) eqn:Hc.
  - destruct (IH _ H) as (Hfree & k & Hk & -> & Hbelow).
    split; [done|]. exists k. split; [lia|]. split; [done|].
    intros j Hj. destruct (decide (j = i)) as [->|]; [done|].
    apply Hbelow. lia.
  - injection H as <-. split; [done|]. exists i. split; [lia|]. split; [done|].
    intros j Hj. lia.
Qed.

(** The bound on the probing loop is enough: the loop always reaches a name
    that is not in the namespace. *)
Lemma probe_finds ns base : is_Some (probe ns base (probe_bound ns) 1).
Proof.
  destruct (probe ns base (probe_bound ns) 1) as [name|] eqn:H; [by eexists|].
  exfalso.
  pose proof (probe_exhausted _ _ _ _ H) as Hall.
  set (names := suffixed base <$> seq 1 (probe_bound ns)).
  assert (list_to_set names ⊆ taken ns) as Hsub.
  { intros x Hx. apply elem_of_list_to_set in Hx.
    apply list_elem_of_fmap in Hx as (j & -> & Hj).
    apply elem_of_seq in Hj. apply Hall. lia. }
  apply subseteq_size in Hsub.
  rewrite size_list_to_set in Hsub.
  2:{ apply NoDup_fmap_2; [apply _ | apply NoDup_seq]. }
  unfold names in Hsub. rewrite length_fmap, length_seq in Hsub.
  unfold probe_bound, taken in *. lia.
Qed.

(** [register_mangled] on a free preferred name binds it and returns it. *)
Lemma register_mangled_free base obj st :
  contains (_ctx_namespace st) base = false →
  register_mangled base obj st =
    (Returned base,
     mkGenState
       (BuiltinContextNamespace (<[base := obj]> (dict (_ctx_namespace st)))
                                (occupied (_ctx_namespace st)))
       (_prefix_counter st)).
Proof.
  intros H. unfold register_mangled, bind, ctx_add, ret. rewrite H.
  by rewrite (add_free _ _ _ H).
Qed.

(** [register_mangled] on a preferred name that is in the namespace raises
    [NameCollision] for that name and leaves the state as it was: the probed
    name is neither bound nor returned. *)
Lemma register_mangled_taken base obj st :
  contains (_ctx_namespace st) base = true →
  register_mangled base obj st = (Raised (NameCollision base), st).
Proof.
  intros H. unfold register_mangled, bind, ctx_add, ret. rewrite H.
  destruct (probe_finds (_ctx_namespace st) base) as [name ->].
  rewrite (add_taken _ _ _ H). by destruct st.
Qed.

(** C1 (the code departs from the claim).  The claim: when the preferred name
    is taken, [register_mangled] probes [name_1], [name_2], ..., binds the first
    free one to the object and returns it.  Here [loads] is bound and [loads_1]
    is free, yet registering another callable named [loads] raises
    [NameCollision] for [loads] and leaves the state untouched: the second
    branch calls [add(base, obj)], not [add(name, obj)]. *)
Theorem register_mangled_collision_at_loads :
  let st := state_of [("loads", PyCallable 5 (Some "loads"))] [] in
  contains (_ctx_namespace st) "loads" = true ∧
  contains (_ctx_namespace st) "loads_1" = false ∧
  register_mangled "loads" (PyCallable 6 (Some "loads")) st
    = (Raised (NameCollision "loads"), st).
Proof. vm_compute. done. Qed.

(** What a naming call does to the namespace: the occupied names stay, the
    bound names only grow, and a returned name was not in the namespace before
    the call and is bound to the object after it. *)
Lemma register_mangled_spec base obj st r st' :
  register_mangled base obj st = (r, st') →
  occupied (_ctx_namespace st') = occupied (_ctx_namespace st) ∧
  dict (_ctx_namespace st) ⊆ dict (_ctx_namespace st') ∧
  _prefix_counter st' = _prefix_counter st ∧
  ∀ name, r = Returned name →
    name = base ∧ contains (_ctx_namespace st) name = false ∧
    dict (_ctx_namespace st') = <[name := obj]> (dict (_ctx_namespace st)).
Proof.
  intros H. destruct (contains (_ctx_namespace st) base) eqn:Hc.
  - rewrite (register_mangled_taken _ _ _ Hc) in H. injection H as <- <-.
    repeat split; done.
  - rewrite (register_mangled_free _ _ _ Hc) in H. injection H as <- <-. simpl.
    pose proof Hc as Hc'. apply contains_false in Hc' as [Hd _].
    split; [done|]. split; [by apply insert_subseteq|]. split; [done|].
    by intros name [= <-].
Qed.

Lemma register_next_id_spec prefix obj st r st' :
  register_next_id prefix obj st = (r, st') →
  occupied (_ctx_namespace st') = occupied (_ctx_namespace st) ∧
  dict (_ctx_namespace st) ⊆ dict (_ctx_namespace st') ∧
  ∀ name, r = Returned name →
    name = suffixed prefix (default 0 (_prefix_counter st !! prefix)) ∧
    contains (_ctx_namespace st) name = false ∧
    dict (_ctx_namespace st') = <[name := obj]> (dict (_ctx_namespace st)).
Proof.
  unfold register_next_id. intros H.
  apply register_mangled_spec in H as (Ho & Hd & _ & Hr). simpl in *.
  split; [done|]. split; [done|]. intros name Hn. by apply Hr.
Qed.

Lemma naming_call_spec c st r st' :
  naming_call c st = (r, st') →
  taken (_ctx_namespace st) ⊆ taken (_ctx_namespace st') ∧
  ∀ name, r = Returned name →
    (name ∉ taken (_ctx_namespace st)) ∧ name ∈ taken (_ctx_namespace st').
Proof.
  intros H.
  assert (occupied (_ctx_namespace st') = occupied (_ctx_namespace st) ∧
          dict (_ctx_namespace st) ⊆ dict (_ctx_namespace st') ∧
          ∀ name, r = Returned name →
            contains (_ctx_namespace st) name = false ∧
            is_Some (dict (_ctx_namespace st') !! name)) as (Ho & Hd & Hr).
  { destruct c as [prefix obj | base obj]; simpl in H.
    - apply register_next_id_spec in H as (? & ? & Hr).
      split; [done|]. split; [done|]. intros name Hn.
      destruct (Hr name Hn) as (_ & ? & Heq). split; [done|].
      rewrite Heq, lookup_insert_eq. by eexists.
    - apply register_mangled_spec in H as (? & ? & _ & Hr).
      split; [done|]. split; [done|]. intros name Hn.
      destruct (Hr name Hn) as (_ & ? & Heq). split; [done|].
      rewrite Heq, lookup_insert_eq. by eexists. }
  unfold taken. rewrite Ho. split.
  - apply subseteq_dom in Hd. intros x Hx.
    apply elem_of_union in Hx as [Hx|Hx]; apply elem_of_union; [left; by apply Hd | by right].
  - intros name Hn. destruct (Hr name Hn) as [Hc Hs]. split.
    + intros Hin. apply contains_taken in Hin. congruence.
    + apply elem_of_union. left. by apply elem_of_dom.
Qed.

Lemma run_calls_hygienic calls st :
  NoDup (returned_names (run_calls calls st)) ∧
  ∀ name, name ∈ returned_names (run_calls calls st) →
          name ∉ taken (_ctx_namespace st).
Proof.
  revert st. induction calls as [|c calls IH]; intros st; simpl.
  { split; [constructor | intros name Hn; by apply elem_of_nil in Hn]. }
  destruct (naming_call c st) as [r st'] eqn:Hc.
  destruct (naming_call_spec _ _ _ _ Hc) as [Hsub Hr].
  destruct (IH st') as [Hnd Hfresh].
  destruct r as [name|exc]; simpl.
  - destruct (Hr name eq_refl) as [Hbefore Hafter]. split.
    + constructor; [|done]. intros Hin. by apply (Hfresh name).
    + intros n Hn. apply elem_of_cons in Hn as [->|Hn]; [done|].
      intros Hin. apply (Hfresh n Hn). by apply Hsub.
  - split; [done|]. intros n Hn Hin. apply (Hfresh n Hn). by apply Hsub.
Qed.

(** A run against a namespace occupied by the parameter [x]: fresh names are
    returned as they are, counters advance per prefix, and the second [dumps]
    raises instead of returning a name. *)
Example run_calls_sample :
  run_calls
    [Allocate "constant" (PyInstance 1); BindExact "dumps" (PyCallable 5 (Some "dumps"));
     Allocate "constant" (PyInstance 2); BindExact "dumps" (PyCallable 6 (Some "dumps"));
     Allocate "func" (PyCallable 7 None)]
    (state_of [] ["x"])
  = [Returned "constant_0"; Returned "dumps"; Returned "constant_1";
     Raised (NameCollision "dumps"); Returned "func_0"].
Proof. vm_compute. reflexivity. Qed.

(** C3.  Hygienic naming: over any sequence of [register_next_id] and
    [register_mangled] calls made against one generator state whose namespace
    is pre-occupied with the parameter names of the target signature
    (whatever it binds already and wherever its counters stand), the returned
    names are pairwise distinct and none of them is a parameter name. *)
Theorem hygienic_naming (parameter_names : list string) (bound : gmap string PyObj)
    (counters : gmap string nat) (calls : list NamingCall) :
  let st := mkGenState (BuiltinContextNamespace bound (list_to_set parameter_names))
                       counters in
  let names := returned_names (run_calls calls st) in
  NoDup names ∧ ∀ name, name ∈ names → name ∉ parameter_names.
Proof.
  intros st names. destruct (run_calls_hygienic calls st) as [Hnd Hfresh].
  split; [done|]. intros name Hn Hin. apply (Hfresh name Hn).
  unfold taken, st. simpl. apply elem_of_union. right.
  by apply elem_of_list_to_set.
Qed.

(** ** Lowering never unbinds a name *)

(** Induction over plans, through the argument lists of function calls. *)
Lemma BroachingPlan_nested_ind (P : BroachingPlan → Prop) :
  (∀ name, P (ParameterElement name)) →
  (∀ value, P (ConstantElement value)) →
  (∀ func args, Forall (λ arg, P (arg_element arg)) args → P (FunctionElement func args)) →
  (∀ target accessor, P target → P (AccessorElement target accessor)) →
  ∀ element, P element.
Proof.
  intros Hparam Hconst Hfunc Hacc. fix IH 1. intros [name|value|func args|target accessor].
  - apply Hparam.
  - apply Hconst.
  - apply Hfunc. induction args as [|arg args IHargs]; constructor; [|exact IHargs].
    destruct arg; apply IH.
  - apply Hacc, IH.
Qed.

Lemma monotone_ret {A} (a : A) : monotone (ret a).
Proof. intros st r st' [= <- <-]. done. Qed.

Lemma monotone_raise {A} (exc : PyExc) : monotone (raise (A := A) exc).
Proof. intros st r st' [= <- <-]. done. Qed.

Lemma monotone_bind {A B} (m : Gen A) (k : A → Gen B) :
  monotone m → (∀ a, monotone (k a)) → monotone (bind m k).
Proof.
  intros Hm Hk st r st' H. unfold bind in H.
  destruct (m st) as [[a|exc] st1] eqn:Hst.
  - destruct (Hm _ _ _ Hst) as [Ho Hd]. destruct (Hk a _ _ _ H) as [Ho' Hd'].
    split; [congruence | by etrans].
  - injection H as <- <-. by apply (Hm _ _ _ Hst).
Qed.

Lemma monotone_register_mangled base obj : monotone (register_mangled base obj).
Proof. intros st r st' H. by apply register_mangled_spec in H as (? & ? & _). Qed.

Lemma monotone_register_next_id prefix obj : monotone (register_next_id prefix obj).
Proof. intros st r st' H. by apply register_next_id_spec in H as (? & ? & _). Qed.

Lemma monotone_lower_args lower todo :
  Forall (λ arg, monotone (lower (arg_element arg))) todo →
  ∀ args keywords, monotone (lower_args lower todo args keywords).
Proof.
  induction 1 as [|arg todo Harg _ IH]; intros args keywords; simpl.
  - apply monotone_ret.
  - destruct arg; simpl in Harg; apply monotone_bind; auto.
Qed.

Lemma monotone_function_call lower func args :
  Forall (λ arg, monotone (lower (arg_element arg))) args →
  monotone (function_call lower func args).
Proof.
  intros H. unfold function_call. apply monotone_bind.
  - destruct (getattr_name func);
      [apply monotone_register_mangled | apply monotone_register_next_id].
  - intros name. apply monotone_bind; [by apply monotone_lower_args|].
    intros lowered. apply monotone_ret.
Qed.

Lemma monotone_accessor_expr target_expr accessor :
  monotone (accessor_expr target_expr accessor).
Proof.
  assert (∀ g, monotone
    (let! name := register_next_id "accessor" g in
     ret (ast_substitute (name +:+ "(__target_expr__)") target_expr))) as Hget.
  { intros g. apply monotone_bind; [apply monotone_register_next_id|].
    intros name. apply monotone_ret. }
  destruct accessor as [attr_name g | key g | g]; simpl.
  - destruct (isidentifier attr_name); [|apply monotone_ret].
    destruct (iskeyword attr_name); [apply monotone_raise | apply monotone_ret].
  - destruct (get_literal_expr key); [apply monotone_ret | apply Hget].
  - apply Hget.
Qed.

Lemma monotone_dispatch element : monotone (_gen_plan_element_dispatch element).
Proof.
  induction element as [name|value|func args IH|target accessor IH]
    using BroachingPlan_nested_ind.
  - apply monotone_ret.
  - simpl. unfold _gen_constant_element. destruct (get_literal_expr value).
    + apply monotone_ret.
    + apply monotone_bind; [apply monotone_register_next_id|].
      intros name. apply monotone_ret.
  - pose proof (monotone_function_call _ func args IH) as Hcall.
    simpl. destruct args as [|[e|k e|e|e] [|arg' args']]; try exact Hcall.
    destruct (is_as_is_stub func); [|exact Hcall].
    by apply Forall_cons_1 in IH as [IH _].
  - simpl. apply monotone_bind; [done|].
    intros target_expr. apply monotone_accessor_expr.
Qed.

(** [produce_code] returns exactly when no parameter is named
    [_closure_signature] and the plan lowers from [lowering_state]. *)
Lemma produce_code_returned plan closure_name signature text captures :
  produce_code plan closure_name signature = Returned (text, captures) →
  ∃ body st,
    _gen_plan_element_dispatch plan (lowering_state signature) = (Returned body, st) ∧
    captures = dict (_ctx_namespace st) ∧
    text = join newline
      [ "def " +:+ closure_name +:+ signature_str (no_types signature) +:+ ":";
        "    return " +:+ compat_ast_unparse body;
        closure_name +:+ ".__signature__ = _closure_signature" ].
Proof.
  unfold produce_code, bind, ctx_add, _create_state, add, ret. simpl.
  destruct (contains _ "_closure_signature") eqn:Hc; [done|].
  rewrite insert_empty. fold (lowering_state signature).
  destruct (_gen_plan_element_dispatch plan (lowering_state signature))
    as [[body|exc] st] eqn:Hd; [|done].
  intros [= <- <-]. by exists body, st.
Qed.

Lemma produce_code_lowered plan closure_name signature body st :
  "_closure_signature" ∉ map fst (parameters signature) →
  _gen_plan_element_dispatch plan (lowering_state signature) = (Returned body, st) →
  produce_code plan closure_name signature =
    Returned
      (join newline
         [ "def " +:+ closure_name +:+ signature_str (no_types signature) +:+ ":";
           "    return " +:+ compat_ast_unparse body;
           closure_name +:+ ".__signature__ = _closure_signature" ],
       dict (_ctx_namespace st)).
Proof.
  intros Hfree Hd.
  unfold produce_code, bind, ctx_add, _create_state, add, ret. simpl.
  assert (contains
    (BuiltinContextNamespace ∅ (list_to_set (map fst (parameters signature))))
    "_closure_signature" = false) as ->.
  { apply contains_false. simpl. split; [apply lookup_empty|].
    by rewrite elem_of_list_to_set. }
  rewrite insert_empty. fold (lowering_state signature). by rewrite Hd.
Qed.

(** ** Text of substituted templates *)

Lemma strip_prefix_app p rest : strip_prefix p (p +:+ rest) = Some rest.
Proof.
  induction p as [|c p IH]; simpl; [by destruct rest|].
  by rewrite Ascii.eqb_refl.
Qed.

Lemma replace_first_head p replacement rest :
  replace_first p replacement (p +:+ rest) = replacement +:+ rest.
Proof.
  destruct (p +:+ rest) eqn:E; simpl;
    rewrite <- E, strip_prefix_app; done.
Qed.

Lemma unparse_dotted target_expr attr_name :
  compat_ast_unparse (ast_substitute ("__target_expr__." +:+ attr_name) target_expr)
  = compat_ast_unparse target_expr +:+ "." +:+ attr_name.
Proof.
  unfold ast_substitute. cbn [compat_ast_unparse].
  apply (replace_first_head "__target_expr__" _ ("." +:+ attr_name)).
Qed.

Lemma unparse_getattr target_expr attr_name :
  compat_ast_unparse
    (ast_substitute ("getattr(__target_expr__, " +:+ py_repr attr_name +:+ ")") target_expr)
  = "getattr(" +:+ compat_ast_unparse target_expr +:+ ", " +:+ py_repr attr_name +:+ ")".
Proof.
  unfold ast_substitute. cbn [compat_ast_unparse].
  generalize (compat_ast_unparse target_expr), (py_repr attr_name). intros t r.
  reflexivity.
Qed.

Lemma unparse_subscript target_expr quoted :
  compat_ast_unparse (ast_substitute ("__target_expr__[" +:+ quoted +:+ "]") target_expr)
  = compat_ast_unparse target_expr +:+ "[" +:+ quoted +:+ "]".
Proof.
  unfold ast_substitute. cbn [compat_ast_unparse].
  apply (replace_first_head "__target_expr__" _ ("[" +:+ quoted +:+ "]")).
Qed.

(** ** Constants *)

(** C2, as stated, fails: [produce_code] binds [_closure_signature] before it
    lowers the plan.  For the constant [42] the capture table is not empty,
    and for an instance without a literal rendering it has two entries. *)
Lemma constant_capture_table_counts :
  (¬ ∃ text, produce_code (ConstantElement (PyInt 42)) "f" sig_x = Returned (text, ∅)) ∧
  (∃ text captures,
     produce_code (ConstantElement (PyInstance 7)) "f" sig_x = Returned (text, captures) ∧
     size captures = 2).
Proof.
  split.
  - intros [text H]. apply produce_code_returned in H as (body & st & Hd & Hcap & _).
    injection Hd as <- <-. simpl in Hcap.
    apply (f_equal (λ m : gmap string PyObj, m !! "_closure_signature")) in Hcap.
    by rewrite lookup_empty, lookup_singleton_eq in Hcap.
  - eexists _, _. split; [reflexivity|]. by vm_compute.
Qed.

(** C2, amended.  When no parameter is named [_closure_signature], the plan
    [Constant 42] compiles to a function whose body is [return 42] and whose
    capture table holds [_closure_signature] alone, with no entry for the
    constant.  For an object without a literal rendering, when no parameter is
    named [constant_0] either, the body is [return constant_0] and the capture
    table has exactly two entries: [_closure_signature], bound to the
    signature, and [constant_0], bound to that object. *)
Theorem produce_code_constant (closure_name : string) (signature : Signature) (obj : PyObj) :
  "_closure_signature" ∉ map fst (parameters signature) →
  let header := "def " +:+ closure_name +:+ signature_str (no_types signature) +:+ ":" in
  let footer := closure_name +:+ ".__signature__ = _closure_signature" in
  let only_signature : gmap string PyObj :=
    {["_closure_signature" := PySignature signature]} in
  produce_code (ConstantElement (PyInt 42)) closure_name signature
    = Returned (join newline [header; "    return 42"; footer], only_signature) ∧
  (get_literal_expr obj = None →
   "constant_0" ∉ map fst (parameters signature) →
   produce_code (ConstantElement obj) closure_name signature
     = Returned (join newline [header; "    return constant_0"; footer],
                 <["constant_0" := obj]> only_signature) ∧
   size (<["constant_0" := obj]> only_signature) = 2).
Proof.
  intros Hsig header footer only_signature. split.
  - by rewrite (produce_code_lowered _ _ _ (Parse "42") (lowering_state signature)).
  - intros Hlit Hfree. split.
    + assert (_gen_plan_element_dispatch (ConstantElement obj) (lowering_state signature)
              = (Returned (Name "constant_0"),
                 mkGenState
                   (BuiltinContextNamespace (<["constant_0" := obj]> only_signature)
                      (list_to_set (map fst (parameters signature))))
                   (<["constant" := 1]> ∅))) as Hd.
      { simpl. unfold _gen_constant_element. rewrite Hlit.
        unfold bind, register_next_id. simpl.
        rewrite register_mangled_free; [reflexivity|].
        apply contains_false. simpl. split; [by vm_compute|].
        by rewrite elem_of_list_to_set. }
      by rewrite (produce_code_lowered _ _ _ _ _ Hsig Hd).
    + unfold only_signature.
      rewrite map_size_insert_None; [by rewrite map_size_singleton|].
      by apply lookup_singleton_ne.
Qed.

Lemma produce_code_constant_witness :
  produce_code (ConstantElement (PyInt 42)) "f" sig_x
    = Returned
        (join newline ["def f(x):"; "    return 42"; "f.__signature__ = _closure_signature"],
         {["_closure_signature" := PySignature sig_x]}) ∧
  produce_code (ConstantElement (PyInstance 7)) "f" sig_x
    = Returned
        (join newline
           ["def f(x):"; "    return constant_0"; "f.__signature__ = _closure_signature"],
         <["constant_0" := PyInstance 7]> {["_closure_signature" := PySignature sig_x]}).
Proof.
  assert ("_closure_signature" ∉ map fst (parameters sig_x)) as Hsig.
  { simpl. rewrite list_elem_of_singleton. done. }
  assert ("constant_0" ∉ map fst (parameters sig_x)) as Hconst.
  { simpl. rewrite list_elem_of_singleton. done. }
  destruct (produce_code_constant "f" sig_x (PyInstance 7) Hsig) as [H42 Hobj].
  split; [exact H42|].
  exact (proj1 (Hobj eq_refl Hconst)).
Defined.

(** C9.  Whatever the plan, the closure name and the signature, the capture
    table that [produce_code] returns binds [_closure_signature] to the
    signature object, the entry being added before any plan node is lowered;
    so the table is never empty. *)
Theorem produce_code_binds_closure_signature
    (plan : BroachingPlan) (closure_name : string) (signature : Signature)
    (text : string) (captures : gmap string PyObj) :
  produce_code plan closure_name signature = Returned (text, captures) →
  captures !! "_closure_signature" = Some (PySignature signature) ∧ captures ≠ ∅.
Proof.
  intros H. apply produce_code_returned in H as (body & st & Hd & -> & _).
  apply monotone_dispatch in Hd as [_ Hsub].
  assert (dict (_ctx_namespace st) !! "_closure_signature" = Some (PySignature signature)) as Hl.
  { eapply lookup_weaken; [|exact Hsub]. simpl. apply lookup_singleton_eq. }
  split; [done|]. intros Hempty. rewrite Hempty, lookup_empty in Hl. done.
Qed.

Lemma produce_code_binds_closure_signature_witness :
  let captures : gmap string PyObj :=
    <["upper" := PyCallable 5 (Some "upper")]>
      {["_closure_signature" := PySignature sig_x]} in
  captures !! "_closure_signature" = Some (PySignature sig_x) ∧ captures ≠ ∅.
Proof.
  apply (produce_code_binds_closure_signature
           (FunctionElement (PyCallable 5 (Some "upper"))
              [PositionalArg (AccessorElement (ParameterElement "x")
                                (DescriptorAccessor "name" (PyCallable 9 None)))])
           "f" sig_x
           (join newline
              ["def f(x):"; "    return upper(x.name)";
               "f.__signature__ = _closure_signature"])).
  vm_compute. reflexivity.
Defined.

(** ** Function calls and the identity passthrough *)

(** C5.  A call of [as_is_stub] whose single argument slot is positional and
    holds a parameter reference lowers exactly as the bare parameter reference
    does: to the parameter's name, with the state, and so the capture table,
    unchanged. *)
Theorem identity_passthrough_parameter (name : string) (st : GenState) :
  _gen_function_element as_is_stub [PositionalArg (ParameterElement name)] st
    = _gen_plan_element_dispatch (ParameterElement name) st ∧
  _gen_function_element as_is_stub [PositionalArg (ParameterElement name)] st
    = (Returned (Name name), st).
Proof. split; reflexivity. Qed.

(** The passthrough holds for any element in the positional slot. *)
Lemma identity_passthrough element st :
  _gen_function_element as_is_stub [PositionalArg element] st
    = _gen_plan_element_dispatch element st.
Proof. reflexivity. Qed.

Lemma is_as_is_stub_spec func : is_as_is_stub func = true ↔ func = as_is_stub.
Proof.
  split; [|by intros ->].
  destruct func as [| | | | | | |i [n|]|]; simpl; try done.
  rewrite andb_true_iff, bool_decide_eq_true, String.eqb_eq.
  by intros [-> ->].
Qed.

(** Outside the passthrough case, that is when the callable is not
    [as_is_stub] or the argument list is not one positional slot, the call
    takes the ordinary path. *)
Lemma ordinary_call_path func args :
  func ≠ as_is_stub ∨ (∀ element, args ≠ [PositionalArg element]) →
  _gen_function_element func args
    = function_call _gen_plan_element_dispatch func args.
Proof.
  intros H. unfold _gen_function_element. simpl.
  destruct args as [|[e|k e|e|e] [|arg' args']]; try reflexivity.
  destruct (is_as_is_stub func) eqn:Hstub; [|reflexivity].
  apply is_as_is_stub_spec in Hstub. destruct H as [H|H]; [done | by destruct (H e)].
Qed.

(** On the ordinary path, a callable whose [__name__] is free is registered
    under that name, and the binding is still there once the arguments are
    lowered. *)
Lemma function_call_free lower func dunder_name args st lowered st' :
  getattr_name func = Some dunder_name →
  contains (_ctx_namespace st) dunder_name = false →
  Forall (λ arg, monotone (lower (arg_element arg))) args →
  lower_args lower args [] []
    (mkGenState
       (BuiltinContextNamespace (<[dunder_name := func]> (dict (_ctx_namespace st)))
                                (occupied (_ctx_namespace st)))
       (_prefix_counter st)) = (Returned lowered, st') →
  function_call lower func args st
    = (Returned (Call (Name dunder_name) (fst lowered) (snd lowered)), st') ∧
  dict (_ctx_namespace st') !! dunder_name = Some func.
Proof.
  intros Hname Hfree Hmono Hargs. unfold function_call, bind, ret.
  rewrite Hname, (register_mangled_free _ _ _ Hfree), Hargs. split; [done|].
  apply (monotone_lower_args _ _ Hmono) in Hargs as [_ Hsub]. simpl in Hsub.
  eapply lookup_weaken; [|exact Hsub]. apply lookup_insert_eq.
Qed.

(** C10 (the code departs from the claim).  An [as_is_stub] call with a
    keyword slot does take the ordinary path, and on its own it is emitted as
    [as_is_stub(value=x)] with [as_is_stub] recorded in the capture table.
    Nested in another such call it is not lowered at all: its natural name
    is already bound, and [register_mangled] raises [NameCollision]. *)
Theorem keyword_identity_call_collides :
  let inner := FunctionElement as_is_stub [KeywordArg "value" (ParameterElement "x")] in
  let outer := FunctionElement as_is_stub [KeywordArg "value" inner] in
  produce_code inner "f" sig_x
    = Returned
        (join newline
           ["def f(x):"; "    return as_is_stub(value=x)";
            "f.__signature__ = _closure_signature"],
         <["as_is_stub" := as_is_stub]> {["_closure_signature" := PySignature sig_x]}) ∧
  produce_code outer "f" sig_x = Raised (NameCollision "as_is_stub").
Proof. split; vm_compute; reflexivity. Qed.

(** ** Accessors *)

(** For an attribute name in ASCII that is not a reserved word: once the
    target is lowered, an identifier gives dotted syntax [target.attr_name],
    any other name the call [getattr(target, 'attr_name')]. *)
Lemma descriptor_accessor_text target attr_name g st st' target_expr :
  _gen_plan_element_dispatch target st = (Returned target_expr, st') →
  is_ascii attr_name = true →
  iskeyword attr_name = false →
  ∃ node,
    _gen_accessor_element target (DescriptorAccessor attr_name g) st = (Returned node, st') ∧
    compat_ast_unparse node =
      if isidentifier attr_name
      then compat_ast_unparse target_expr +:+ "." +:+ attr_name
      else "getattr(" +:+ compat_ast_unparse target_expr +:+ ", " +:+ py_repr attr_name +:+ ")".
Proof.
  intros Ht _ Hkw. unfold _gen_accessor_element. simpl. unfold bind. rewrite Ht. simpl.
  rewrite Hkw. destruct (isidentifier attr_name); eexists; (split; [reflexivity|]).
  - apply unparse_dotted.
  - apply unparse_getattr.
Qed.

(** Every reserved word passes the identifier test. *)
Lemma keywords_are_identifiers attr_name :
  iskeyword attr_name = true → isidentifier attr_name = true.
Proof.
  unfold iskeyword. rewrite bool_decide_eq_true. unfold kwlist.
  rewrite !elem_of_cons, elem_of_nil.
  intros H; repeat (destruct H as [->|H]; [reflexivity|]); done.
Qed.

(** A descriptor accessor named by a reserved word is not lowered at all:
    once its target is lowered, the node raises [SyntaxError]. *)
Lemma reserved_attribute_raises target attr_name g st st' target_expr :
  _gen_plan_element_dispatch target st = (Returned target_expr, st') →
  iskeyword attr_name = true →
  _gen_accessor_element target (DescriptorAccessor attr_name g) st = (Raised SyntaxError, st').
Proof.
  intros Ht Hkw. unfold _gen_accessor_element. simpl. unfold bind. rewrite Ht. simpl.
  by rewrite (keywords_are_identifiers _ Hkw), Hkw.
Qed.

(** C6 (the code departs from the claim).  The attribute names [value] and
    [123bad] are lowered as the claim says, to [x.value] and to
    [getattr(x, '123bad')].  The name [class] is not: it passes
    [str.isidentifier()], the dotted template [__target_expr__.class] is
    built, and it does not parse; the node is lowered neither to dotted syntax
    nor to the [getattr] call, and [produce_code] ends in [SyntaxError]. *)
Theorem reserved_word_attribute_is_not_lowered :
  let body_of := λ attr_name,
    produce_code
      (AccessorElement (ParameterElement "x") (DescriptorAccessor attr_name (PyCallable 9 None)))
      "f" sig_x in
  let compiled := λ body : string,
    Returned
      (join newline ["def f(x):"; "    return " +:+ body; "f.__signature__ = _closure_signature"],
       ({["_closure_signature" := PySignature sig_x]} : gmap string PyObj)) in
  body_of "value" = compiled "x.value" ∧
  body_of "123bad" = compiled "getattr(x, '123bad')" ∧
  isidentifier "class" = true ∧
  body_of "class" = Raised SyntaxError.
Proof. repeat split; vm_compute; reflexivity. Qed.

(** An item accessor whose key has a literal rendering lowers to a subscript
    of the target by the [repr] of that rendering, that is by a string. *)
Lemma item_accessor_literal target key literal_expr g st st' target_expr :
  _gen_plan_element_dispatch target st = (Returned target_expr, st') →
  get_literal_expr key = Some literal_expr →
  ∃ node,
    _gen_accessor_element target (ItemAccessor key g) st = (Returned node, st') ∧
    compat_ast_unparse node
      = compat_ast_unparse target_expr +:+ "[" +:+ py_repr literal_expr +:+ "]".
Proof.
  intros Ht Hk. unfold _gen_accessor_element. simpl. unfold bind. rewrite Ht. simpl.
  rewrite Hk. eexists. split; [reflexivity|]. apply unparse_subscript.
Qed.

(** An item accessor whose key has no literal rendering registers its getter
    under the next free [accessor_N] and wraps the target in a call of it. *)
Lemma item_accessor_by_getter target key g st st' target_expr :
  _gen_plan_element_dispatch target st = (Returned target_expr, st') →
  get_literal_expr key = None →
  let name := suffixed "accessor" (default 0 (_prefix_counter st' !! "accessor")) in
  contains (_ctx_namespace st') name = false →
  _gen_accessor_element target (ItemAccessor key g) st
    = (Returned (ast_substitute (name +:+ "(__target_expr__)") target_expr),
       mkGenState
         (BuiltinContextNamespace (<[name := g]> (dict (_ctx_namespace st')))
                                  (occupied (_ctx_namespace st')))
         (<["accessor" := S (default 0 (_prefix_counter st' !! "accessor"))]>
            (_prefix_counter st'))).
Proof.
  intros Ht Hk name Hfree. unfold _gen_accessor_element. simpl. unfold bind.
  rewrite Ht. simpl. rewrite Hk. unfold bind, register_next_id.
  by rewrite register_mangled_free.
Qed.

(** C4 (the code departs from the claim).  For the item accessor with the
    integer key [1] on the parameter [x], the key has the literal rendering
    [1], and the claim expects [x[1]]; the generator emits [x['1']], indexing
    by a string: the template interpolates the rendering with [!r]. *)
Theorem item_accessor_key_1_is_quoted :
  get_literal_expr (PyInt 1) = Some "1" ∧
  produce_code
    (AccessorElement (ParameterElement "x") (ItemAccessor (PyInt 1) (PyCallable 9 None)))
    "f" sig_x
    = Returned
        (join newline
           ["def f(x):"; "    return x['1']"; "f.__signature__ = _closure_signature"],
         {["_closure_signature" := PySignature sig_x]}).
Proof. split; vm_compute; reflexivity. Qed.

(** ** Provider-chain resolution *)

Section ResolutionProperties.
Context {Request Answer Defect : Type}.
Local Open Scope list_scope.
Implicit Types (chain pre rest : list (Provider Request Answer Defect)).
Implicit Types (p q : Provider Request Answer Defect) (request : Request).

(** Providers whose checker rejects the request are passed over. *)
Lemma resolve_from_rejecting pre rest k request reasons invoked :
  Forall (λ q, checker q request = false) pre →
  resolve_from (pre ++ rest) k request reasons invoked
    = resolve_from rest (k + length pre) request reasons invoked.
Proof.
  intros H. revert k. induction H as [|q pre Hq _ IH]; intros k; simpl.
  - f_equal. lia.
  - rewrite Hq, IH. f_equal. lia.
Qed.

(** Providers that reject or refuse the request are passed over, the
    refusing ones being invoked on the way. *)
Lemma resolve_from_declining pre rest k request reasons invoked :
  Forall (λ q, checker q request = true → ∃ reason, attempt q request = Refused reason) pre →
  ∃ reasons' invoked',
    resolve_from (pre ++ rest) k request reasons invoked
      = resolve_from rest (k + length pre) request reasons' invoked' ∧
    ∀ j, j ∈ invoked' → j ∈ invoked ∨ j < k + length pre.
Proof.
  intros H. revert k reasons invoked.
  induction H as [|q pre Hq _ IH]; intros k reasons invoked; simpl.
  - exists reasons, invoked. split; [f_equal; lia | auto].
  - destruct (checker q request) eqn:Hc.
    + destruct (Hq eq_refl) as [reason ->].
      destruct (IH (S k) (reasons ++ [reason]) (invoked ++ [k])) as (rs & inv & Heq & Hinv).
      exists rs, inv. split; [rewrite Heq; f_equal; lia|].
      intros j Hj. destruct (Hinv j Hj) as [Hin|Hlt]; [|right; lia].
      apply elem_of_app in Hin as [Hin|Hin]; [by left|].
      apply list_elem_of_singleton in Hin as ->. right. lia.
    + destruct (IH (S k) reasons invoked) as (rs & inv & Heq & Hinv).
      exists rs, inv. split; [rewrite Heq; f_equal; lia|].
      intros j Hj. destruct (Hinv j Hj) as [Hin|Hlt]; [by left | right; lia].
Qed.

Lemma chain_split chain i p :
  chain !! i = Some p →
  chain = take i chain ++ p :: drop (S i) chain ∧ length (take i chain) = i.
Proof.
  intros H. split; [by rewrite take_drop_middle|].
  apply length_take_le. apply lookup_lt_Some in H. lia.
Qed.

Lemma before_position chain i (P : Provider Request Answer Defect → Prop) :
  (∀ j q, j < i → chain !! j = Some q → P q) → Forall P (take i chain).
Proof.
  intros H. apply Forall_lookup. intros j q Hj.
  pose proof (lookup_lt_Some _ _ _ Hj) as Hlt. rewrite length_take in Hlt.
  apply (H j); [lia|]. by rewrite lookup_take_lt in Hj by lia.
Qed.

(** C7.  First match wins: when the provider at position [i] is the first
    whose checker accepts the request, and it answers, [resolve] returns
    exactly that answer and the only provider invoked is the one at [i]; no
    provider after it is invoked. *)
Theorem resolve_first_match chain request i p answer :
  chain !! i = Some p →
  checker p request = true →
  (∀ j q, j < i → chain !! j = Some q → checker q request = false) →
  attempt p request = Answered answer →
  resolve chain request = (Resolved answer, [i]).
Proof.
  intros Hi Hc Hfirst Ha.
  destruct (chain_split _ _ _ Hi) as [Hsplit Hlen].
  apply before_position in Hfirst.
  unfold resolve. rewrite Hsplit.
  rewrite (resolve_from_rejecting _ _ _ _ _ _ Hfirst), Hlen. simpl.
  by rewrite Hc, Ha.
Qed.

(** C8.  When every provider whose checker accepts the request refuses it,
    [resolve] fails with [NoProviderFound] for that request.  When a
    provider raises an error of its own, the providers before it having
    rejected or refused the request, [resolve] ends with that very error
    and has invoked no provider past the failing one. *)
Theorem resolve_refusals_and_crashes chain request :
  ((∀ p, p ∈ chain → checker p request = true →
         ∃ reason, attempt p request = Refused reason) →
   ∃ reasons, fst (resolve chain request) = NoProviderFound request reasons) ∧
  (∀ i p error,
     chain !! i = Some p →
     checker p request = true →
     attempt p request = Crashed error →
     (∀ j q, j < i → chain !! j = Some q → checker q request = true →
             ∃ reason, attempt q request = Refused reason) →
     fst (resolve chain request) = Propagated error ∧
     ∀ j : nat, j ∈ snd (resolve chain request) → (j ≤ i)%nat).
Proof.
  split.
  - intros Hall.
    assert (Forall (λ q, checker q request = true →
                         ∃ reason, attempt q request = Refused reason) chain) as HF.
    { apply Forall_forall. intros q Hq. by apply Hall. }
    destruct (resolve_from_declining chain [] 0 request [] [] HF)
      as (reasons & invoked & Heq & _).
    exists reasons. unfold resolve. rewrite app_nil_r in Heq. by rewrite Heq.
  - intros i p error Hi Hc Ha Hbefore.
    destruct (chain_split _ _ _ Hi) as [Hsplit Hlen].
    apply before_position in Hbefore.
    destruct (resolve_from_declining _ (p :: drop (S i) chain) 0 request [] [] Hbefore)
      as (reasons & invoked & Heq & Hinv).
    rewrite <- Hsplit, Hlen in Heq. simpl in Heq. rewrite Hc, Ha in Heq.
    unfold resolve. rewrite Heq. simpl. split; [done|].
    intros j Hj. apply elem_of_app in Hj as [Hj|Hj].
    + destruct (Hinv j Hj) as [Hnil|Hlt]; [by apply elem_of_nil in Hnil | simpl in Hlt; lia].
    + apply list_elem_of_singleton in Hj as ->. lia.
Qed.
End ResolutionProperties.

Lemma resolve_first_match_witness :
  resolve [deaf_provider; deaf_provider; answering_provider "first"; answering_provider "second"] 7
    = (Resolved "first", [2]).
Proof.
  apply (resolve_first_match _ 7 2 (answering_provider "first") "first").
  - reflexivity.
  - reflexivity.
  - intros j q Hj Hq. destruct j as [|[|j]]; [| |lia];
      simpl in Hq; injection Hq as <-; reflexivity.
  - reflexivity.
Defined.

Lemma resolve_refusals_and_crashes_witness :
  (∃ reasons,
     fst (resolve [deaf_provider; refusing_provider; refusing_provider] 7)
       = NoProviderFound 7 reasons) ∧
  (fst (resolve [refusing_provider; deaf_provider; crashing_provider; answering_provider "late"] 7)
     = Propagated "ZeroDivisionError" ∧
   ∀ j : nat, j ∈ snd (resolve [refusing_provider; deaf_provider; crashing_provider;
                                 answering_provider "late"] 7) → (j ≤ 2)%nat).
Proof.
  split.
  - apply (proj1 (resolve_refusals_and_crashes
                    [deaf_provider; refusing_provider; refusing_provider] 7)).
    intros p Hp Hc.
    repeat (apply elem_of_cons in Hp as [-> | Hp]);
      [discriminate Hc | by eexists | by eexists | by apply elem_of_nil in Hp].
  - apply (proj2 (resolve_refusals_and_crashes
                    [refusing_provider; deaf_provider; crashing_provider;
                     answering_provider "late"] 7) 2 crashing_provider).
    + reflexivity.
    + reflexivity.
    + reflexivity.
    + intros j q Hj Hq Hc. destruct j as [|[|j]]; [| |lia];
        simpl in Hq; injection Hq as <-; [by eexists | discriminate Hc].
Defined.


(** * Further properties of the generator *)

Set Warnings "-clear-no-such-hyp".

(** ** The name allocator *)

Lemma probe_index_bound ns base fuel i name :
  probe ns base fuel i = Some name →
  ∃ k : nat, (i ≤ k < i + fuel)%nat ∧ name = suffixed base k.
Proof.
  revert i. induction fuel as [|fuel IH]; intros i H; [done|].
  simpl in H. destruct (contains ns (suffixed base i)).
  - destruct (IH _ H) as (k & Hk & ->). exists k. split; [lia | done].
  - injection H as <-. exists i. split; [lia | done].
Qed.

(** X1.  The probing loop of [register_mangled] always ends: it stops at the
    least suffix [k >= 1] whose name [base_k] is not in the namespace, and
    that suffix is at most one more than the number of names in the
    namespace. *)
Theorem probe_reaches_least_free_suffix (ns : ContextNamespace) (base : string) :
  ∃ k : nat,
    (1 ≤ k ≤ S (size (taken ns)))%nat ∧
    probe ns base (probe_bound ns) 1 = Some (suffixed base k) ∧
    contains ns (suffixed base k) = false ∧
    ∀ j : nat, (1 ≤ j < k)%nat → contains ns (suffixed base j) = true.
Proof.
  destruct (probe_finds ns base) as [name H].
  destruct (probe_index_bound _ _ _ _ _ H) as (k & Hk & ->).
  destruct (probe_sound _ _ _ _ _ H) as (Hfree & k' & Hk' & Heq & Hbelow).
  apply (inj (suffixed base)) in Heq as <-.
  exists k. unfold probe_bound, taken in *. repeat split; [lia | lia | done.. ].
Qed.

(** X2.  When the preferred name is not in the namespace, [register_mangled]
    returns it unmodified and binds it to the object; and whenever
    [register_mangled] returns a name, that name was not in the namespace
    before, it is bound to the object after, and nothing else in the
    generator state has changed. *)
Theorem register_mangled_binds_fresh_name (base : string) (obj : PyObj) (st : GenState) :
  let bound_in := λ name,
    mkGenState
      (BuiltinContextNamespace (<[name := obj]> (dict (_ctx_namespace st)))
                               (occupied (_ctx_namespace st)))
      (_prefix_counter st) in
  (contains (_ctx_namespace st) base = false →
   register_mangled base obj st = (Returned base, bound_in base)) ∧
  (∀ name st', register_mangled base obj st = (Returned name, st') →
     contains (_ctx_namespace st) name = false ∧ st' = bound_in name).
Proof.
  intros bound_in. split; [apply register_mangled_free|].
  intros name st' H.
  apply register_mangled_spec in H as (Ho & _ & Hc & Hr).
  destruct (Hr name eq_refl) as (_ & Hfree & Hd). split; [done|].
  destruct st' as [[d o] c]. unfold bound_in. simpl in *. by subst.
Qed.

Lemma register_mangled_binds_fresh_name_witness :
  register_mangled "dumps" (PyCallable 5 (Some "dumps")) (state_of [] ["x"])
    = (Returned "dumps", state_of [("dumps", PyCallable 5 (Some "dumps"))] ["x"]) ∧
  contains (_ctx_namespace (state_of [] ["x"])) "dumps" = false.
Proof.
  destruct (register_mangled_binds_fresh_name
              "dumps" (PyCallable 5 (Some "dumps")) (state_of [] ["x"])) as [Hfree Hret].
  assert (register_mangled "dumps" (PyCallable 5 (Some "dumps")) (state_of [] ["x"])
          = (Returned "dumps", state_of [("dumps", PyCallable 5 (Some "dumps"))] ["x"])) as H.
  { apply (Hfree eq_refl). }
  split; [exact H|]. exact (proj1 (Hret _ _ H)).
Defined.

Lemma register_next_id_counter prefix obj st r st' :
  register_next_id prefix obj st = (r, st') →
  _prefix_counter st'
    = <[prefix := S (default 0 (_prefix_counter st !! prefix))]> (_prefix_counter st).
Proof.
  unfold register_next_id. intros H.
  by apply register_mangled_spec in H as (_ & _ & Hc & _).
Qed.

(** X3.  [register_next_id] advances the counter of its prefix by exactly one
    and leaves the other counters alone, whether the registration returns or
    raises; [register_mangled] never touches a counter. *)
Theorem counters_advance_by_one (prefix : string) (obj : PyObj) (st : GenState) :
  _prefix_counter (snd (register_next_id prefix obj st))
    = <[prefix := S (default 0 (_prefix_counter st !! prefix))]> (_prefix_counter st) ∧
  _prefix_counter (snd (register_mangled prefix obj st)) = _prefix_counter st.
Proof.
  split.
  - destruct (register_next_id prefix obj st) as [r st'] eqn:H.
    by apply register_next_id_counter in H.
  - destruct (register_mangled prefix obj st) as [r st'] eqn:H.
    apply register_mangled_spec in H as (_ & _ & Hc & _). simpl. by rewrite Hc.
Qed.

(** X4.  Two allocations in a row under one prefix that both return give the
    names [prefix_c] and [prefix_(c+1)], [c] being the counter of the prefix
    before the first one; the names differ and both stay bound, each to its
    own object, also when the two objects are the same: nothing is shared. *)
Theorem allocations_number_consecutively
    (prefix : string) (obj1 obj2 : PyObj) (st st1 st2 : GenState) (name1 name2 : string) :
  register_next_id prefix obj1 st = (Returned name1, st1) →
  register_next_id prefix obj2 st1 = (Returned name2, st2) →
  let c := default 0 (_prefix_counter st !! prefix) in
  name1 = suffixed prefix c ∧ name2 = suffixed prefix (S c) ∧ name1 ≠ name2 ∧
  dict (_ctx_namespace st2) !! name1 = Some obj1 ∧
  dict (_ctx_namespace st2) !! name2 = Some obj2.
Proof.
  intros H1 H2 c.
  pose proof (register_next_id_counter _ _ _ _ _ H1) as Hc1.
  apply register_next_id_spec in H1 as (_ & _ & Hr1).
  apply register_next_id_spec in H2 as (_ & _ & Hr2).
  destruct (Hr1 _ eq_refl) as (-> & _ & Hd1).
  destruct (Hr2 _ eq_refl) as (-> & _ & Hd2).
  assert (default 0 (_prefix_counter st1 !! prefix) = S c) as Hnext.
  { by rewrite Hc1, lookup_insert_eq. }
  rewrite Hnext in *. fold c in Hd1.
  assert (suffixed prefix c ≠ suffixed prefix (S c)) as Hne.
  { intros Heq. apply (inj (suffixed prefix)) in Heq. lia. }
  repeat split; [done|..].
  - rewrite Hd2, lookup_insert_ne by done. by rewrite Hd1, lookup_insert_eq.
  - by rewrite Hd2, lookup_insert_eq.
Qed.

Lemma allocations_number_consecutively_witness :
  let st2 := snd (register_next_id "constant" (PyInstance 7)
                    (snd (register_next_id "constant" (PyInstance 7) (state_of [] ["x"])))) in
  "constant_0" ≠ "constant_1" ∧
  dict (_ctx_namespace st2) !! "constant_0" = Some (PyInstance 7) ∧
  dict (_ctx_namespace st2) !! "constant_1" = Some (PyInstance 7).
Proof.
  intros st2.
  destruct (allocations_number_consecutively "constant" (PyInstance 7) (PyInstance 7)
              (state_of [] ["x"])
              (snd (register_next_id "constant" (PyInstance 7) (state_of [] ["x"])))
              st2 "constant_0" "constant_1")
    as (_ & _ & Hne & H1 & H2); [by vm_compute | by vm_compute |].
  by split.
Defined.

(** What one naming call does to the bindings: a returned name is added,
    bound to the object of the call; a call that raises adds nothing. *)
Lemma register_mangled_dict base obj st r st' :
  register_mangled base obj st = (r, st') →
  occupied (_ctx_namespace st') = occupied (_ctx_namespace st) ∧
  dict (_ctx_namespace st') =
    match r with
    | Returned name => <[name := obj]> (dict (_ctx_namespace st))
    | Raised _ => dict (_ctx_namespace st)
    end.
Proof.
  intros H. destruct (contains (_ctx_namespace st) base) eqn:Hc.
  - rewrite (register_mangled_taken _ _ _ Hc) in H. by injection H as <- <-.
  - rewrite (register_mangled_free _ _ _ Hc) in H. by injection H as <- <-.
Qed.

Lemma naming_call_dict c st r st' :
  naming_call c st = (r, st') →
  occupied (_ctx_namespace st') = occupied (_ctx_namespace st) ∧
  dict (_ctx_namespace st') =
    match r with
    | Returned name => <[name := call_obj c]> (dict (_ctx_namespace st))
    | Raised _ => dict (_ctx_namespace st)
    end.
Proof.
  destruct c as [prefix obj | base obj]; simpl; [unfold register_next_id|];
    intros H; by apply register_mangled_dict in H.
Qed.

Lemma final_state_keeps calls st :
  occupied (_ctx_namespace (final_state calls st)) = occupied (_ctx_namespace st) ∧
  dict (_ctx_namespace st) ⊆ dict (_ctx_namespace (final_state calls st)).
Proof.
  revert st. induction calls as [|c calls IH]; intros st; simpl; [done|].
  destruct (naming_call c st) as [r st'] eqn:Hc. simpl.
  destruct (IH st') as [Ho Hd].
  destruct (naming_call_dict _ _ _ _ Hc) as [Ho' Hd'].
  split; [congruence|]. etrans; [|exact Hd].
  rewrite Hd'. destruct r as [name|exc]; [|done].
  apply insert_subseteq.
  destruct (naming_call_spec _ _ _ _ Hc) as [_ Hr].
  destruct (Hr name eq_refl) as [Hnot _].
  apply not_elem_of_dom. intros Hin. apply Hnot. unfold taken. set_solver.
Qed.

(** X5.  Over any sequence of naming calls, every name that a call returned
    is bound, in the state the sequence leaves behind, to the very object that
    call registered: no later call rebinds or removes it. *)
Theorem returned_names_stay_bound
    (calls : list NamingCall) (st : GenState) (i : nat) (c : NamingCall) (name : string) :
  calls !! i = Some c →
  run_calls calls st !! i = Some (Returned name) →
  dict (_ctx_namespace (final_state calls st)) !! name = Some (call_obj c).
Proof.
  revert st i. induction calls as [|c0 calls IH]; intros st i Hc Hr; [done|].
  simpl in *. destruct (naming_call c0 st) as [r st'] eqn:Hcall. simpl.
  destruct i as [|i]; simpl in *.
  - injection Hc as <-. injection Hr as ->.
    destruct (naming_call_dict _ _ _ _ Hcall) as [_ Hd].
    eapply lookup_weaken; [|apply final_state_keeps].
    rewrite Hd. apply lookup_insert_eq.
  - by apply (IH st' i).
Qed.

Lemma returned_names_stay_bound_witness :
  dict (_ctx_namespace
          (final_state
             [Allocate "constant" (PyInstance 1); BindExact "dumps" (PyCallable 5 (Some "dumps"));
              Allocate "constant" (PyInstance 2)]
             (state_of [] ["x"]))) !! "constant_0" = Some (PyInstance 1).
Proof.
  apply (returned_names_stay_bound
           [Allocate "constant" (PyInstance 1); BindExact "dumps" (PyCallable 5 (Some "dumps"));
            Allocate "constant" (PyInstance 2)]
           (state_of [] ["x"]) 0 (Allocate "constant" (PyInstance 1)) "constant_0").
  - reflexivity.
  - vm_compute. reflexivity.
Defined.

(** X6.  A sequence of naming calls binds the names it returned and no other:
    the names bound at the end are those bound at the start together with the
    returned ones, every earlier binding is kept as it was, and the occupied
    names are the same. *)
Theorem naming_binds_only_returned_names (calls : list NamingCall) (st : GenState) :
  dom (dict (_ctx_namespace (final_state calls st)))
    = dom (dict (_ctx_namespace st)) ∪ list_to_set (returned_names (run_calls calls st)) ∧
  dict (_ctx_namespace st) ⊆ dict (_ctx_namespace (final_state calls st)) ∧
  occupied (_ctx_namespace (final_state calls st)) = occupied (_ctx_namespace st).
Proof.
  split; [|split; apply final_state_keeps].
  revert st. induction calls as [|c calls IH]; intros st; simpl.
  { set_solver. }
  destruct (naming_call c st) as [r st'] eqn:Hc. simpl. rewrite IH.
  destruct (naming_call_dict _ _ _ _ Hc) as [_ Hd]. rewrite Hd.
  destruct r as [name|exc]; simpl; [|done].
  rewrite dom_insert_L. set_solver.
Qed.


(** ** Invariants of lowering *)

(** Any reflexive and transitive relation between states that the two
    registration methods respect is respected by the lowering of every plan:
    the generator changes its state through those two methods only. *)
Section LoweringInvariant.
Variable R : GenState → GenState → Prop.
Hypothesis R_refl : ∀ st, R st st.
Hypothesis R_trans : ∀ st1 st2 st3, R st1 st2 → R st2 st3 → R st1 st3.
Hypothesis R_mangled : ∀ base obj, respects R (register_mangled base obj).
Hypothesis R_next_id : ∀ prefix obj, respects R (register_next_id prefix obj).

Lemma respects_ret {A} (a : A) : respects R (ret a).
Proof. intros st r st' [= <- <-]. apply R_refl. Qed.

Lemma respects_raise {A} (exc : PyExc) : respects R (raise (A := A) exc).
Proof. intros st r st' [= <- <-]. apply R_refl. Qed.

Lemma respects_bind {A B} (m : Gen A) (k : A → Gen B) :
  respects R m → (∀ a, respects R (k a)) → respects R (bind m k).
Proof.
  intros Hm Hk st r st' H. unfold bind in H.
  destruct (m st) as [[a|exc] st1] eqn:Hst.
  - eapply R_trans; [by eapply Hm | by eapply Hk].
  - injection H as <- <-. by eapply Hm.
Qed.

Lemma respects_lower_args lower todo :
  Forall (λ arg, respects R (lower (arg_element arg))) todo →
  ∀ args keywords, respects R (lower_args lower todo args keywords).
Proof.
  induction 1 as [|arg todo Harg _ IH]; intros args keywords; simpl.
  - apply respects_ret.
  - destruct arg; simpl in Harg; apply respects_bind; auto.
Qed.

Lemma respects_function_call lower func args :
  Forall (λ arg, respects R (lower (arg_element arg))) args →
  respects R (function_call lower func args).
Proof.
  intros H. unfold function_call. apply respects_bind.
  - destruct (getattr_name func); [apply R_mangled | apply R_next_id].
  - intros name. apply respects_bind; [by apply respects_lower_args|].
    intros lowered. apply respects_ret.
Qed.

Lemma respects_accessor_expr target_expr accessor :
  respects R (accessor_expr target_expr accessor).
Proof.
  assert (∀ g, respects R
    (let! name := register_next_id "accessor" g in
     ret (ast_substitute (name +:+ "(__target_expr__)") target_expr))) as Hget.
  { intros g. apply respects_bind; [apply R_next_id|].
    intros name. apply respects_ret. }
  destruct accessor as [attr_name g | key g | g]; simpl.
  - destruct (isidentifier attr_name); [|apply respects_ret].
    destruct (iskeyword attr_name); [apply respects_raise | apply respects_ret].
  - destruct (get_literal_expr key); [apply respects_ret | apply Hget].
  - apply Hget.
Qed.

Lemma respects_dispatch element : respects R (_gen_plan_element_dispatch element).
Proof.
  induction element as [name|value|func args IH|target accessor IH]
    using BroachingPlan_nested_ind.
  - apply respects_ret.
  - simpl. unfold _gen_constant_element. destruct (get_literal_expr value).
    + apply respects_ret.
    + apply respects_bind; [apply R_next_id|]. intros name. apply respects_ret.
  - pose proof (respects_function_call _ func args IH) as Hcall.
    simpl. destruct args as [|[e|k e|e|e] [|arg' args']]; try exact Hcall.
    destruct (is_as_is_stub func); [|exact Hcall].
    by apply Forall_cons_1 in IH as [IH _].
  - simpl. apply respects_bind; [done|].
    intros target_expr. apply respects_accessor_expr.
Qed.
End LoweringInvariant.

Lemma keeps_taken_refl st : keeps_taken st st.
Proof. by split. Qed.

Lemma keeps_taken_trans st1 st2 st3 :
  keeps_taken st1 st2 → keeps_taken st2 st3 → keeps_taken st1 st3.
Proof.
  intros [Ho1 Hl1] [Ho2 Hl2]. split; [congruence|].
  intros name Hc. rewrite <- (Hl1 name Hc). apply Hl2.
  unfold contains in *. rewrite Ho1, (Hl1 name Hc). done.
Qed.

Lemma keeps_taken_register_mangled base obj :
  respects keeps_taken (register_mangled base obj).
Proof.
  intros st r st' H. pose proof (register_mangled_dict _ _ _ _ _ H) as [Ho Hd].
  apply register_mangled_spec in H as (_ & _ & _ & Hr).
  split; [done|]. intros name Hc. rewrite Hd.
  destruct r as [new|exc]; [|done].
  destruct (Hr new eq_refl) as (_ & Hfree & _).
  apply lookup_insert_ne. intros ->. congruence.
Qed.

Lemma keeps_taken_register_next_id prefix obj :
  respects keeps_taken (register_next_id prefix obj).
Proof.
  intros st r st' H. unfold register_next_id in H.
  by apply keeps_taken_register_mangled in H.
Qed.

Lemma dispatch_keeps_taken element :
  respects keeps_taken (_gen_plan_element_dispatch element).
Proof.
  apply (respects_dispatch keeps_taken keeps_taken_refl keeps_taken_trans
           keeps_taken_register_mangled keeps_taken_register_next_id).
Qed.

(** X7.  Lowering a plan, whether it returns or raises, leaves every name that
    was in the namespace as it found it: a bound name keeps its object, a
    parameter name that was not bound stays unbound, and the set of occupied
    names does not change.  Whatever lowering binds, it binds under names
    that were free. *)
Theorem lowering_keeps_namespace (element : BroachingPlan) (st : GenState) :
  let st' := snd (_gen_plan_element_dispatch element st) in
  occupied (_ctx_namespace st') = occupied (_ctx_namespace st) ∧
  (∀ name obj, dict (_ctx_namespace st) !! name = Some obj →
               dict (_ctx_namespace st') !! name = Some obj) ∧
  (∀ name, name ∈ occupied (_ctx_namespace st) →
           dict (_ctx_namespace st) !! name = None →
           dict (_ctx_namespace st') !! name = None).
Proof.
  intros st'. unfold st'.
  destruct (_gen_plan_element_dispatch element st) as [r st1] eqn:H. simpl.
  apply dispatch_keeps_taken in H as [Ho Hl].
  split; [done|]. split.
  - intros name obj Hb. rewrite Hl; [done|].
    unfold contains. rewrite Hb. by rewrite bool_decide_eq_true_2 by eauto.
  - intros name Hocc Hn. rewrite Hl; [done|].
    unfold contains. rewrite (bool_decide_eq_true_2 (name ∈ _)) by done.
    apply orb_true_r.
Qed.

Lemma lowering_keeps_namespace_witness :
  let plan := FunctionElement (PyCallable 5 (Some "upper"))
                [PositionalArg (ConstantElement (PyInstance 7))] in
  let st' := snd (_gen_plan_element_dispatch plan (lowering_state sig_x)) in
  dict (_ctx_namespace st') !! "_closure_signature" = Some (PySignature sig_x) ∧
  dict (_ctx_namespace st') !! "x" = None.
Proof.
  intros plan st'.
  destruct (lowering_keeps_namespace plan (lowering_state sig_x)) as (_ & Hb & Hp).
  split.
  - apply Hb. reflexivity.
  - apply Hp; [by vm_compute | reflexivity].
Defined.

(** ** What [produce_code] returns and when it fails *)

Lemma produce_code_returned_free plan closure_name signature text captures :
  produce_code plan closure_name signature = Returned (text, captures) →
  "_closure_signature" ∉ map fst (parameters signature).
Proof.
  unfold produce_code, bind, ctx_add, _create_state, add. simpl.
  destruct (contains _ "_closure_signature") eqn:Hc; [done|].
  intros _. apply contains_false in Hc as [_ Hc]. simpl in Hc.
  by rewrite elem_of_list_to_set in Hc.
Qed.

(** X8.  The capture table that [produce_code] returns never has a parameter
    name of the target signature among its keys: a captured object cannot
    shadow a parameter in the emitted function. *)
Theorem captures_never_shadow_parameters
    (plan : BroachingPlan) (closure_name : string) (signature : Signature)
    (text : string) (captures : gmap string PyObj) (parameter : string) :
  produce_code plan closure_name signature = Returned (text, captures) →
  parameter ∈ map fst (parameters signature) →
  captures !! parameter = None.
Proof.
  intros H Hp. pose proof (produce_code_returned_free _ _ _ _ _ H) as Hfree.
  apply produce_code_returned in H as (body & st & Hd & -> & _).
  apply dispatch_keeps_taken in Hd as [_ Hl].
  rewrite Hl.
  - simpl. apply lookup_singleton_ne. intros <-. done.
  - unfold contains. simpl.
    rewrite (bool_decide_eq_true_2 (parameter ∈ _)); [apply orb_true_r|].
    by apply elem_of_list_to_set.
Qed.

Lemma captures_never_shadow_parameters_witness :
  (<["upper" := PyCallable 5 (Some "upper")]>
     ({["_closure_signature" := PySignature sig_x]} : gmap string PyObj)) !! "x" = None.
Proof.
  apply (captures_never_shadow_parameters
           (FunctionElement (PyCallable 5 (Some "upper")) [PositionalArg (ParameterElement "x")])
           "f" sig_x
           (join newline
              ["def f(x):"; "    return upper(x)"; "f.__signature__ = _closure_signature"])).
  - vm_compute. reflexivity.
  - simpl. apply list_elem_of_singleton. reflexivity.
Defined.

(** X9.  A target signature with a parameter named [_closure_signature] cannot
    be compiled: for every plan [produce_code] raises [NameCollision] for that
    name, before any plan node is lowered. *)
Theorem closure_signature_parameter_collides
    (plan : BroachingPlan) (closure_name : string) (signature : Signature) :
  "_closure_signature" ∈ map fst (parameters signature) →
  produce_code plan closure_name signature = Raised (NameCollision "_closure_signature").
Proof.
  intros Hin. unfold produce_code, bind, ctx_add, _create_state, add. simpl.
  assert (contains
    (BuiltinContextNamespace ∅ (list_to_set (map fst (parameters signature))))
    "_closure_signature" = true) as ->; [|done].
  apply contains_taken. unfold taken. simpl.
  apply elem_of_union. right. by apply elem_of_list_to_set.
Qed.

Lemma closure_signature_parameter_collides_witness :
  produce_code (ParameterElement "x") "f"
    (mkSignature [("x", None); ("_closure_signature", None)] None)
    = Raised (NameCollision "_closure_signature").
Proof.
  apply closure_signature_parameter_collides.
  simpl. apply list_elem_of_further, list_elem_of_here.
Defined.

(** ** Plans that register nothing *)

(** Lowering a plan that registers nothing leaves the state as it is,
    whether the lowering returns or raises. *)
Lemma dispatch_registers_nothing_state element :
  registers_nothing element = true →
  ∀ st r st', _gen_plan_element_dispatch element st = (r, st') → st' = st.
Proof.
  induction element as [name|value|func args IH|target accessor IH]
    using BroachingPlan_nested_ind; intros Hpure st r st' H.
  - by injection H as _ <-.
  - simpl in *. unfold _gen_constant_element in H.
    destruct (get_literal_expr value); [|done]. by injection H as _ <-.
  - destruct args as [|[e|k e|e|e] [|arg' args']]; try done.
    simpl in Hpure. apply andb_true_iff in Hpure as [Hstub Hpure].
    apply Forall_cons_1 in IH as [IH _]. simpl in H. rewrite Hstub in H.
    by apply (IH Hpure st r st').
  - simpl in H. unfold bind in H.
    destruct (_gen_plan_element_dispatch target st) as [[t|exc] st1] eqn:Ht.
    + destruct accessor as [attr_name g|key g|g]; simpl in Hpure; [| |done].
      * apply (IH Hpure) in Ht as ->. simpl in H.
        destruct (isidentifier attr_name); [destruct (iskeyword attr_name)|];
          by injection H as _ <-.
      * apply andb_true_iff in Hpure as [Hpure Hkey].
        apply (IH Hpure) in Ht as ->. simpl in H.
        destruct (get_literal_expr key); [|done]. by injection H as _ <-.
    + injection H as _ <-.
      destruct accessor as [attr_name g|key g|g]; simpl in Hpure; [| |done].
      * by apply (IH Hpure) in Ht.
      * apply andb_true_iff in Hpure as [Hpure _]. by apply (IH Hpure) in Ht.
Qed.


Lemma registered_name_is_new (m : Gen string) obj st name st' :
  (∃ base, m = register_mangled base obj) ∨ (∃ prefix, m = register_next_id prefix obj) →
  m st = (Returned name, st') →
  dict (_ctx_namespace st) !! name = None ∧ dict (_ctx_namespace st') !! name = Some obj.
Proof.
  intros [[base ->]|[prefix ->]] H.
  - apply register_mangled_spec in H as (_ & _ & _ & Hr).
    destruct (Hr name eq_refl) as (_ & Hfree & ->).
    apply contains_false in Hfree as [Hfree _]. by rewrite lookup_insert_eq.
  - apply register_next_id_spec in H as (_ & _ & Hr).
    destruct (Hr name eq_refl) as (_ & Hfree & ->).
    apply contains_false in Hfree as [Hfree _]. by rewrite lookup_insert_eq.
Qed.

Lemma function_call_grows func args st node st' :
  function_call _gen_plan_element_dispatch func args st = (Returned node, st') →
  ∃ name, dict (_ctx_namespace st) !! name = None ∧
          dict (_ctx_namespace st') !! name = Some func.
Proof.
  unfold function_call, bind. intros H.
  set (m := match getattr_name func with
            | Some dunder_name => register_mangled dunder_name func
            | None => register_next_id "func" func
            end) in H.
  destruct (m st) as [[name|exc] st1] eqn:Hm; [|done].
  apply (registered_name_is_new m func) in Hm as [Hnew Hbound].
  2:{ unfold m. destruct (getattr_name func); [left | right]; by eexists. }
  destruct (lower_args _ args [] [] st1) as [[lowered|exc] st2] eqn:Ha; [|done].
  injection H as _ <-. exists name. split; [done|].
  apply monotone_lower_args in Ha as [_ Hsub].
  - by eapply lookup_weaken.
  - apply Forall_forall. intros arg _. apply monotone_dispatch.
Qed.

Lemma accessor_expr_unchanged target_expr accessor st node st' :
  accessor_expr target_expr accessor st = (Returned node, st') →
  dict (_ctx_namespace st') = dict (_ctx_namespace st) →
  match accessor with
  | DescriptorAccessor _ _ => True
  | ItemAccessor key _ => is_Some (get_literal_expr key)
  | CustomAccessor _ => False
  end.
Proof.
  assert (∀ g,
    (let! name := register_next_id "accessor" g in
     ret (ast_substitute (name +:+ "(__target_expr__)") target_expr)) st
      = (Returned node, st') →
    dict (_ctx_namespace st') = dict (_ctx_namespace st) → False) as Hget.
  { intros g H Heq. unfold bind in H.
    destruct (register_next_id "accessor" g st) as [[name|exc] st1] eqn:Hr; [|done].
    injection H as _ <-.
    apply (registered_name_is_new _ g) in Hr as [Hnew Hbound]; [|right; by eexists].
    congruence. }
  destruct accessor as [attr_name g|key g|g]; simpl; [done| |by apply Hget].
  destruct (get_literal_expr key); [by eexists|].
  intros H Heq. by destruct (Hget g H Heq).
Qed.

Lemma dispatch_dict_unchanged element :
  ∀ st node st',
    _gen_plan_element_dispatch element st = (Returned node, st') →
    dict (_ctx_namespace st') = dict (_ctx_namespace st) →
    registers_nothing element = true.
Proof.
  induction element as [name|value|func args IH|target accessor IH]
    using BroachingPlan_nested_ind; intros st node st' H Heq.
  - done.
  - simpl in *. unfold _gen_constant_element in H.
    destruct (get_literal_expr value); [done|]. unfold bind in H.
    destruct (register_next_id "constant" value st) as [[name|exc] st1] eqn:Hr; [|done].
    injection H as _ <-.
    apply (registered_name_is_new _ value) in Hr as [Hnew Hbound]; [|right; by eexists].
    congruence.
  - assert (function_call _gen_plan_element_dispatch func args st = (Returned node, st') →
            False) as Hcall.
    { intros Hc. apply function_call_grows in Hc as (name & Hnew & Hbound). congruence. }
    destruct args as [|[e|k e|e|e] [|arg' args']]; try (by destruct (Hcall H)).
    simpl in H. simpl. destruct (is_as_is_stub func); [|by destruct (Hcall H)].
    apply Forall_cons_1 in IH as [IH _]. by apply (IH st node st').
  - simpl in H. unfold bind in H.
    destruct (_gen_plan_element_dispatch target st) as [[t|exc] st1] eqn:Ht; [|done].
    pose proof (monotone_dispatch _ _ _ _ Ht) as [_ Hsub1].
    pose proof (monotone_accessor_expr _ _ _ _ _ H) as [_ Hsub2].
    assert (dict (_ctx_namespace st1) = dict (_ctx_namespace st)) as Heq1.
    { apply (anti_symm (⊆)); [by rewrite <- Heq | done]. }
    pose proof (IH _ _ _ Ht Heq1) as Htarget.
    apply accessor_expr_unchanged in H; [|congruence].
    destruct accessor as [attr_name g|key g|g]; simpl; [done| |done].
    rewrite Htarget. by destruct H as [e ->].
Qed.



(** X12.  The capture table that [produce_code] returns holds
    [_closure_signature] alone exactly when the plan is of that kind: every
    other plan that compiles captures at least one object. *)
Theorem capture_table_minimal_iff
    (plan : BroachingPlan) (closure_name : string) (signature : Signature)
    (text : string) (captures : gmap string PyObj) :
  produce_code plan closure_name signature = Returned (text, captures) →
  captures = {["_closure_signature" := PySignature signature]}
  ↔ registers_nothing plan = true.
Proof.
  intros H. pose proof (produce_code_returned_free _ _ _ _ _ H) as Hfree.
  apply produce_code_returned in H as (body & st & Hd & -> & _). split.
  - intros Heq. by apply (dispatch_dict_unchanged _ _ _ _ Hd).
  - intros Hpure. by apply (dispatch_registers_nothing_state _ Hpure) in Hd as ->.
Qed.

Lemma capture_table_minimal_iff_witness :
  (<["constant_0" := PyInstance 7]>
     ({["_closure_signature" := PySignature sig_x]} : gmap string PyObj)
   = {["_closure_signature" := PySignature sig_x]})
  ↔ registers_nothing (ConstantElement (PyInstance 7)) = true.
Proof.
  apply (capture_table_minimal_iff (ConstantElement (PyInstance 7)) "f" sig_x
           (join newline
              ["def f(x):"; "    return constant_0";
               "f.__signature__ = _closure_signature"])).
  vm_compute. reflexivity.
Defined.

(** ** Function calls *)

(** X13.  The argument loop of [_gen_function_element] lowers the elements of
    the slots one after the other, in slot order, each in the state the one
    before left, and gives every slot exactly one entry made of its own
    lowered element: a positional argument goes to [args] as it is, an
    unpacked iterable starred, a keyword argument goes to [keywords] under its
    key and an unpacked mapping without one, each list keeping the order of
    the slots.  An exception raised by an element ends the loop there. *)
Theorem argument_slots_keep_order
    (lower : BroachingPlan → Gen AST) (todo : list (Arg BroachingPlan))
    (args : list AST) (keywords : list (option string * AST)) (st : GenState) :
  lower_args lower todo args keywords st
  = (let! subs := lower_each lower (map arg_element todo) in
     ret ((args ++ flat_map slot_args (zip todo subs))%list,
          (keywords ++ flat_map slot_keywords (zip todo subs))%list)) st.
Proof.
  revert args keywords st.
  induction todo as [|arg todo IH]; intros args keywords st.
  - simpl. unfold bind, ret. by rewrite !app_nil_r.
  - destruct arg as [e|key e|e|e]; cbn [lower_args map arg_element lower_each];
      unfold bind; (destruct (lower e st) as [[sub|exc] st1]; [|done]);
      rewrite IH; unfold bind, ret;
      (destruct (lower_each lower (map arg_element todo) st1) as [[subs|exc] st2]; [|done]);
      simpl; by rewrite <- ?app_assoc.
Qed.

(** The loop on three slots of different kinds. *)
Example argument_slots_sample :
  lower_args _gen_plan_element_dispatch
    [KeywordArg "key" (ParameterElement "b"); PositionalArg (ParameterElement "a");
     UnpackMapping (ParameterElement "d"); UnpackIterable (ParameterElement "c")]
    [] [] (lowering_state sig_x)
  = (Returned ([Name "a"; Starred (Name "c")], [(Some "key", Name "b"); (None, Name "d")]),
     lowering_state sig_x).
Proof. reflexivity. Qed.

Lemma lower_args_length lower todo args keywords st lowered st' :
  lower_args lower todo args keywords st = (Returned lowered, st') →
  length (fst lowered) + length (snd lowered)
    = length args + length keywords + length todo.
Proof.
  revert args keywords st.
  induction todo as [|arg todo IH]; intros args keywords st H; simpl in H.
  - injection H as <- _. simpl. lia.
  - destruct arg as [e|key e|e|e]; unfold bind in H;
      (destruct (lower e st) as [[sub|exc] st1]; [|done]);
      apply IH in H; rewrite H, ?length_app; simpl; lia.
Qed.

(** X14.  Outside the identity passthrough, whenever [_gen_function_element]
    returns, it returns a call of a plain name that was not in the namespace
    before and is bound to the callable afterwards, the binding having
    survived the lowering of the arguments; the call has one entry per
    argument slot. *)
Theorem ordinary_call_registers_callable
    (func : PyObj) (args : list (Arg BroachingPlan)) (st st' : GenState) (node : AST) :
  func ≠ as_is_stub ∨ (∀ element, args ≠ [PositionalArg element]) →
  _gen_function_element func args st = (Returned node, st') →
  ∃ name actual keywords,
    node = Call (Name name) actual keywords ∧
    contains (_ctx_namespace st) name = false ∧
    dict (_ctx_namespace st') !! name = Some func ∧
    length actual + length keywords = length args.
Proof.
  intros Hord H. rewrite (ordinary_call_path _ _ Hord) in H.
  unfold function_call, bind in H.
  set (m := match getattr_name func with
            | Some dunder_name => register_mangled dunder_name func
            | None => register_next_id "func" func
            end) in H.
  destruct (m st) as [[name|exc] st1] eqn:Hm; [|done].
  assert (contains (_ctx_namespace st) name = false ∧
          dict (_ctx_namespace st1) !! name = Some func) as [Hfree Hbound].
  { unfold m in Hm. destruct (getattr_name func).
    - apply register_mangled_spec in Hm as (_ & _ & _ & Hr).
      destruct (Hr name eq_refl) as (_ & ? & ->). by rewrite lookup_insert_eq.
    - apply register_next_id_spec in Hm as (_ & _ & Hr).
      destruct (Hr name eq_refl) as (_ & ? & ->). by rewrite lookup_insert_eq. }
  destruct (lower_args _ args [] [] st1) as [[lowered|exc] st2] eqn:Ha; [|done].
  injection H as <- <-. exists name, (fst lowered), (snd lowered).
  split; [done|]. split; [done|]. split.
  - pose proof Ha as Hmono. apply monotone_lower_args in Hmono as [_ Hsub].
    + by eapply lookup_weaken.
    + apply Forall_forall. intros arg _. apply monotone_dispatch.
  - apply lower_args_length in Ha. simpl in Ha. lia.
Qed.

Lemma ordinary_call_registers_callable_witness :
  let st' :=
    mkGenState
      (BuiltinContextNamespace
         (<["upper" := PyCallable 5 (Some "upper")]>
            {["_closure_signature" := PySignature sig_x]})
         (list_to_set ["x"]))
      ∅ in
  ∃ name actual keywords,
    Call (Name "upper") [Name "x"] [(Some "sep", Parse "'-'")]
      = Call (Name name) actual keywords ∧
    contains (_ctx_namespace (lowering_state sig_x)) name = false ∧
    dict (_ctx_namespace st') !! name = Some (PyCallable 5 (Some "upper")) ∧
    length actual + length keywords
      = length [PositionalArg (ParameterElement "x");
                KeywordArg "sep" (ConstantElement (PyStr "-"))].
Proof.
  intros st'.
  apply (ordinary_call_registers_callable (PyCallable 5 (Some "upper"))
           [PositionalArg (ParameterElement "x"); KeywordArg "sep" (ConstantElement (PyStr "-"))]
           (lowering_state sig_x) st'
           (Call (Name "upper") [Name "x"] [(Some "sep", Parse "'-'")])).
  - left. discriminate.
  - vm_compute. reflexivity.
Defined.

(** X15.  A callable whose [__name__] is not in the namespace keeps its
    natural name: outside the identity passthrough, once its arguments lower,
    the node is a call of exactly that name, and that name is bound to the
    callable in the state returned. *)
Theorem free_natural_name_is_kept
    (func : PyObj) (dunder_name : string) (args : list (Arg BroachingPlan))
    (st st' : GenState) (lowered : list AST * list (option string * AST)) :
  getattr_name func = Some dunder_name →
  func ≠ as_is_stub ∨ (∀ element, args ≠ [PositionalArg element]) →
  contains (_ctx_namespace st) dunder_name = false →
  lower_args _gen_plan_element_dispatch args [] []
    (mkGenState
       (BuiltinContextNamespace (<[dunder_name := func]> (dict (_ctx_namespace st)))
                                (occupied (_ctx_namespace st)))
       (_prefix_counter st)) = (Returned lowered, st') →
  _gen_function_element func args st
    = (Returned (Call (Name dunder_name) (fst lowered) (snd lowered)), st') ∧
  dict (_ctx_namespace st') !! dunder_name = Some func.
Proof.
  intros Hname Hord Hfree Hargs. rewrite (ordinary_call_path _ _ Hord).
  apply (function_call_free _ _ _ _ _ _ _ Hname Hfree); [|done].
  apply Forall_forall. intros arg _. apply monotone_dispatch.
Qed.

Lemma free_natural_name_is_kept_witness :
  _gen_function_element (PyCallable 5 (Some "upper")) [PositionalArg (ParameterElement "x")]
    (lowering_state sig_x)
  = (Returned (Call (Name "upper") [Name "x"] []),
     mkGenState
       (BuiltinContextNamespace
          (<["upper" := PyCallable 5 (Some "upper")]>
             {["_closure_signature" := PySignature sig_x]})
          (list_to_set ["x"]))
       ∅).
Proof.
  refine (proj1 (free_natural_name_is_kept (PyCallable 5 (Some "upper")) "upper"
                   [PositionalArg (ParameterElement "x")]
                   (lowering_state sig_x) _ ([Name "x"], []) _ _ _ _)).
  - reflexivity.
  - left. discriminate.
  - by vm_compute.
  - reflexivity.
Defined.

(** ** Accessors lowered through their getter *)

Lemma pretty_N_go_no_underscore x s :
  string_mem "_" s = false → string_mem "_" (pretty_N_go x s) = false.
Proof.
  revert s. induction (N.lt_wf_0 x) as [x _ IH]; intros s Hs.
  destruct (decide (x = 0)%N) as [->|Hx]; [by rewrite pretty_N_go_0|].
  rewrite pretty_N_go_step by lia. apply IH; [apply N.div_lt; lia|].
  simpl. rewrite Hs. unfold pretty_N_char. by repeat case_match.
Qed.

Lemma pretty_nat_no_underscore (n : nat) : string_mem "_" (pretty n) = false.
Proof.
  unfold pretty, pretty_nat, pretty, pretty_N.
  case_decide; [done|]. by apply pretty_N_go_no_underscore.
Qed.

Lemma append_cons c s t : String c s +:+ t = String c (s +:+ t).
Proof. reflexivity. Qed.

Lemma strip_prefix_cons a p b s :
  strip_prefix (String a p) (String b s)
    = if Ascii.eqb a b then strip_prefix p s else None.
Proof. reflexivity. Qed.

Lemma replace_first_skip p replacement c text :
  strip_prefix p (String c text) = None →
  replace_first p replacement (String c text)
    = String c (replace_first p replacement text).
Proof. intros H. cbn [replace_first]. by rewrite H. Qed.

Lemma replace_first_after digits replacement :
  string_mem "_" digits = false →
  replace_first "__target_expr__" replacement (digits +:+ "(__target_expr__)")
    = digits +:+ "(" +:+ replacement +:+ ")".
Proof.
  induction digits as [|d digits IH]; intros H; [done|].
  cbn [string_mem] in H. apply orb_false_iff in H as [Hd H].
  rewrite !append_cons, replace_first_skip; [by rewrite (IH H)|].
  by rewrite strip_prefix_cons, Hd.
Qed.

Lemma strip_prefix_after_underscore digits :
  string_mem "_" digits = false →
  strip_prefix "__target_expr__" (String "_" (digits +:+ "(__target_expr__)")) = None.
Proof.
  intros H. destruct digits as [|d digits]; [done|].
  cbn [string_mem] in H. apply orb_false_iff in H as [Hd _].
  by rewrite append_cons, strip_prefix_cons, Ascii.eqb_refl, strip_prefix_cons, Hd.
Qed.

Lemma unparse_getter_call n target_expr :
  compat_ast_unparse
    (ast_substitute (suffixed "accessor" n +:+ "(__target_expr__)") target_expr)
  = suffixed "accessor" n +:+ "(" +:+ compat_ast_unparse target_expr +:+ ")".
Proof.
  unfold ast_substitute, suffixed. cbn [compat_ast_unparse].
  generalize (compat_ast_unparse target_expr). intros t.
  pose proof (pretty_nat_no_underscore n) as Hn. revert Hn.
  generalize (pretty n). intros digits Hn.
  replace (("accessor" +:+ "_" +:+ digits) +:+ "(__target_expr__)")
    with (String "a" (String "c" (String "c" (String "e" (String "s" (String "s"
           (String "o" (String "r" (String "_" (digits +:+ "(__target_expr__)"))))))))))
    by reflexivity.
  replace (("accessor" +:+ "_" +:+ digits) +:+ "(" +:+ t +:+ ")")
    with (String "a" (String "c" (String "c" (String "e" (String "s" (String "s"
           (String "o" (String "r" (String "_" (digits +:+ "(" +:+ t +:+ ")"))))))))))
    by reflexivity.
  do 8 (rewrite replace_first_skip by reflexivity; f_equal).
  rewrite replace_first_skip by (by apply strip_prefix_after_underscore).
  f_equal. by apply replace_first_after.
Qed.

(** X16.  An accessor with no syntax of its own, that is an item accessor
    whose key has no literal rendering or an accessor of another kind, is
    lowered through its getter: once the target is lowered, and the next name
    [accessor_N] being free, the getter is bound under that name, the counter
    advances, and the node unparses to the call [accessor_N(target)]. *)
Theorem getter_accessor_lowering
    (target : BroachingPlan) (accessor : Accessor)
    (st st1 : GenState) (target_expr : AST) :
  _gen_plan_element_dispatch target st = (Returned target_expr, st1) →
  match accessor with
  | DescriptorAccessor _ _ => False
  | ItemAccessor key _ => get_literal_expr key = None
  | CustomAccessor _ => True
  end →
  let number := default 0 (_prefix_counter st1 !! "accessor") in
  let name := suffixed "accessor" number in
  contains (_ctx_namespace st1) name = false →
  ∃ node,
    _gen_accessor_element target accessor st
      = (Returned node,
         mkGenState
           (BuiltinContextNamespace (<[name := getter accessor]> (dict (_ctx_namespace st1)))
                                    (occupied (_ctx_namespace st1)))
           (<["accessor" := S number]> (_prefix_counter st1))) ∧
    compat_ast_unparse node = name +:+ "(" +:+ compat_ast_unparse target_expr +:+ ")".
Proof.
  intros Ht Hkind number name Hfree.
  exists (ast_substitute (name +:+ "(__target_expr__)") target_expr).
  split; [|apply unparse_getter_call].
  unfold _gen_accessor_element. simpl. unfold bind. rewrite Ht. simpl.
  destruct accessor as [attr_name g|key g|g]; simpl in *; [done| |].
  - rewrite Hkind. unfold bind, register_next_id. by rewrite register_mangled_free.
  - unfold bind, register_next_id. by rewrite register_mangled_free.
Qed.

Lemma getter_accessor_lowering_witness :
  ∃ node,
    _gen_accessor_element (ParameterElement "x") (CustomAccessor (PyCallable 9 None))
      (lowering_state sig_x)
      = (Returned node,
         mkGenState
           (BuiltinContextNamespace
              (<["accessor_0" := PyCallable 9 None]>
                 {["_closure_signature" := PySignature sig_x]})
              (list_to_set ["x"]))
           (<["accessor" := 1]> ∅)) ∧
    compat_ast_unparse node = "accessor_0(x)".
Proof.
  apply (getter_accessor_lowering (ParameterElement "x") (CustomAccessor (PyCallable 9 None))
           (lowering_state sig_x) (lowering_state sig_x) (Name "x")).
  - reflexivity.
  - exact I.
  - by vm_compute.
Defined.

(** ** One capture per registering node *)

Lemma adds_bindings_ret {A} (a : A) : adds_bindings (ret a) 0.
Proof. intros st a' st' [= _ <-]. lia. Qed.

Lemma adds_bindings_raise {A} (exc : PyExc) n : adds_bindings (raise (A := A) exc) n.
Proof. intros st a st' H. done. Qed.

Lemma adds_bindings_bind {A B} (m : Gen A) (k : A → Gen B) n1 n2 :
  adds_bindings m n1 → (∀ a, adds_bindings (k a) n2) → adds_bindings (bind m k) (n1 + n2).
Proof.
  intros Hm Hk st b st' H. unfold bind in H.
  destruct (m st) as [[a|exc] st1] eqn:Hst; [|done].
  rewrite (Hk a _ _ _ H), (Hm _ _ _ Hst). lia.
Qed.

Lemma adds_bindings_register_mangled base obj :
  adds_bindings (register_mangled base obj) 1.
Proof.
  intros st name st' H. apply register_mangled_spec in H as (_ & _ & _ & Hr).
  destruct (Hr name eq_refl) as (_ & Hfree & ->).
  apply contains_false in Hfree as [Hfree _].
  rewrite map_size_insert_None by done. lia.
Qed.

Lemma adds_bindings_register_next_id prefix obj :
  adds_bindings (register_next_id prefix obj) 1.
Proof.
  intros st name st' H. unfold register_next_id in H.
  by apply adds_bindings_register_mangled in H.
Qed.

Lemma adds_bindings_lower_args lower (count : BroachingPlan → nat) todo :
  Forall (λ arg, adds_bindings (lower (arg_element arg)) (count (arg_element arg))) todo →
  ∀ args keywords,
    adds_bindings (lower_args lower todo args keywords)
      (foldr (λ arg n, count (arg_element arg) + n) 0 todo).
Proof.
  induction 1 as [|arg todo Harg _ IH]; intros args keywords; simpl.
  - apply adds_bindings_ret.
  - destruct arg; simpl in *; apply adds_bindings_bind; auto.
Qed.

Lemma adds_bindings_dispatch element :
  adds_bindings (_gen_plan_element_dispatch element) (registrations element).
Proof.
  induction element as [name|value|func args IH|target accessor IH]
    using BroachingPlan_nested_ind.
  - apply adds_bindings_ret.
  - simpl. unfold _gen_constant_element. destruct (get_literal_expr value).
    + apply adds_bindings_ret.
    + apply (adds_bindings_bind _ _ 1 0); [apply adds_bindings_register_next_id|].
      intros name. apply adds_bindings_ret.
  - set (in_args := foldr (λ arg n, registrations (arg_element arg) + n) 0 args).
    assert (adds_bindings (function_call _gen_plan_element_dispatch func args) (S in_args))
      as Hcall.
    { unfold function_call. apply (adds_bindings_bind _ _ 1 in_args).
      - destruct (getattr_name func);
          [apply adds_bindings_register_mangled | apply adds_bindings_register_next_id].
      - intros name. replace in_args with (in_args + 0) by lia.
        apply adds_bindings_bind; [by apply adds_bindings_lower_args|].
        intros lowered. apply adds_bindings_ret. }
    assert (in_args =
      (fix in_args (l : list (Arg BroachingPlan)) : nat :=
         match l with
         | [] => 0
         | PositionalArg e :: rest | KeywordArg _ e :: rest
         | UnpackMapping e :: rest | UnpackIterable e :: rest =>
             registrations e + in_args rest
         end) args) as Heq.
    { unfold in_args. clear. induction args as [|[e|k e|e|e] args IHa]; simpl; congruence. }
    cbn [_gen_plan_element_dispatch registrations]. rewrite <- Heq.
    destruct args as [|[e|k e|e|e] [|arg' args']]; try exact Hcall.
    destruct (is_as_is_stub func); [|exact Hcall].
    by apply Forall_cons_1 in IH as [IH _].
  - cbn [_gen_plan_element_dispatch registrations].
    apply adds_bindings_bind; [done|]. intros target_expr.
    assert (∀ g, adds_bindings
      (let! name := register_next_id "accessor" g in
       ret (ast_substitute (name +:+ "(__target_expr__)") target_expr)) 1) as Hget.
    { intros g. apply (adds_bindings_bind _ _ 1 0); [apply adds_bindings_register_next_id|].
      intros name. apply adds_bindings_ret. }
    destruct accessor as [attr_name g | key g | g]; simpl.
    + destruct (isidentifier attr_name); [|apply adds_bindings_ret].
      destruct (iskeyword attr_name); [apply adds_bindings_raise | apply adds_bindings_ret].
    + destruct (get_literal_expr key); [apply adds_bindings_ret | apply Hget].
    + apply Hget.
Qed.

(** X18.  Every registering node of a plan gets a capture of its own: when
    [produce_code] returns, the capture table has one entry for
    [_closure_signature] and one for each constant without a literal
    rendering, each call outside the identity passthrough and each accessor
    lowered through its getter.  No two nodes share an entry, also when they
    hold the same object. *)
Theorem one_capture_per_registration
    (plan : BroachingPlan) (closure_name : string) (signature : Signature)
    (text : string) (captures : gmap string PyObj) :
  produce_code plan closure_name signature = Returned (text, captures) →
  size captures = S (registrations plan).
Proof.
  intros H. apply produce_code_returned in H as (body & st & Hd & -> & _).
  apply adds_bindings_dispatch in Hd. rewrite Hd. simpl.
  by rewrite map_size_singleton.
Qed.

Lemma one_capture_per_registration_witness :
  size (<["constant_0" := PyInstance 7]>
          (<["constant_1" := PyInstance 7]>
             (<["pair" := PyCallable 5 (Some "pair")]>
                ({["_closure_signature" := PySignature sig_x]} : gmap string PyObj))))
  = S (registrations
         (FunctionElement (PyCallable 5 (Some "pair"))
            [PositionalArg (ConstantElement (PyInstance 7));
             PositionalArg (ConstantElement (PyInstance 7))])).
Proof.
  apply (one_capture_per_registration
           (FunctionElement (PyCallable 5 (Some "pair"))
              [PositionalArg (ConstantElement (PyInstance 7));
               PositionalArg (ConstantElement (PyInstance 7))])
           "f" sig_x
           (join newline
              ["def f(x):"; "    return pair(constant_0, constant_1)";
               "f.__signature__ = _closure_signature"])).
  vm_compute. reflexivity.
Defined.
